(** * XLAShardedTensor: the wrapping and dispatch protocol

    A shallow embedding of [torch_xla/experimental/xla_sharded_tensor.py].

    The Python module manipulates tensor objects by reference, sets
    attributes on them, raises exceptions and holds a scoped guard that
    suspends dispatch interception.  The embedding therefore works in a
    state-and-exception monad over a store of objects addressed by
    location; object identity is the location. *)

From stdpp Require Import gmap strings list fin_maps.
From Stdlib Require Import ZArith.

Set Warnings "-register-all".

Open Scope Z_scope.

(** ** Values and objects *)

(** Locations of the object store. *)
Abbreviation loc := nat.

(** The two tensor classes of the module: [torch.Tensor] and its subclass
    [XLAShardedTensor]. *)
Inductive pyclass := Tensor_cls | XLAShardedTensor_cls.

Global Instance pyclass_eq_dec : EqDecision pyclass.
Proof. solve_decision. Defined.

(** Python values that reach the module.  Tuples, lists and dictionaries
    are the containers that [tree_map] traverses; everything else is a
    leaf.  A dictionary keeps its insertion order. *)
Inductive value :=
  | VNone
  | VBool (b : bool)
  | VInt (z : Z)
  | VStr (s : string)
  | VOpaque (tag : string)              (* a dtype, a layout or a device *)
  | VSize (dims : list Z)               (* torch.Size *)
  | VRef (l : loc)                      (* reference to an object of the store *)
  | VMethod (self : loc) (name : string) (* bound built-in tensor method *)
  | VTuple (vs : list value)
  | VList (vs : list value)
  | VDict (kvs : list (string * value)).

(** What the tensor engine knows about a tensor. *)
Record TensorImpl := {
  t_size : list Z;
  t_stride : list Z;
  t_storage_offset : Z;
  t_dtype : string;
  t_layout : string;
  t_device : string;
  t_requires_grad : bool;
  t_storage : option nat   (* the storage viewed; none for a wrapper *)
}.

(** Objects of the store: tensors (of either class, with their instance
    attributes: the slot [global_tensor] and the instance dictionary) and
    [XLAShard] records.

    [[
    @dataclass
    class XLAShard:
      data: torch.Tensor
      rank: int
    ]]

    An instance of the dataclass keeps its fields, [data] and [rank], in
    its instance dictionary.  The dataclass is not frozen and the
    annotations are not enforced: any attribute of a record can be
    assigned any value. *)
Inductive obj :=
  | TensorObj (cls : pyclass) (impl : TensorImpl) (attrs : gmap string value)
  | XLAShard (fields : gmap string value).

Inductive exn :=
  | AttributeError (name : string)
  | TypeError (msg : string)
  | RuntimeError (msg : string)
  | RecursionError.

Inductive result (A : Type) :=
  | Ok (a : A)
  | Raise (e : exn).
Arguments Ok {A} a.
Arguments Raise {A} e.

(** ** Program state

    [dispatch_disabled] is the thread-local flag that
    [torch._C._DisableTorchDispatch] sets; [interceptions] counts how many
    times the engine has entered the interception handler. *)
Record state := {
  heap : list obj;
  dispatch_disabled : bool;
  interceptions : nat
}.

Definition set_heap (h : list obj) (s : state) : state :=
  {| heap := h; dispatch_disabled := dispatch_disabled s;
     interceptions := interceptions s |}.

Definition set_dispatch_disabled (b : bool) (s : state) : state :=
  {| heap := heap s; dispatch_disabled := b;
     interceptions := interceptions s |}.

Definition count_interception (s : state) : state :=
  {| heap := heap s; dispatch_disabled := dispatch_disabled s;
     interceptions := S (interceptions s) |}.

(** ** The monad of Python computations *)

Definition M (A : Type) : Type := state -> result A * state.

Definition ret {A} (a : A) : M A := fun s => (Ok a, s).

Definition raise {A} (e : exn) : M A := fun s => (Raise e, s).

Definition bind {A B} (m : M A) (k : A -> M B) : M B :=
  fun s =>
    match m s with
    | (Ok a, s') => k a s'
    | (Raise e, s') => (Raise e, s')
    end.

Declare Scope py_scope.
Delimit Scope py_scope with py.
Notation "x <- c1 ;; c2" := (bind c1 (fun x => c2))
  (at level 100, c1 at next level, right associativity) : py_scope.
Notation "c1 ;;; c2" := (bind c1 (fun _ => c2))
  (at level 100, right associativity) : py_scope.
Open Scope py_scope.

(** A list comprehension whose element expression is a computation:
    elements are evaluated left to right and the first exception ends it. *)
Definition traverse {A B} (f : A -> M B) : list A -> M (list B) :=
  fix go (l : list A) : M (list B) :=
    match l with
    | [] => ret []
    | x :: xs => y <- f x ;; ys <- go xs ;; ret (y :: ys)
    end.

(** ** Store primitives *)

Definition lookup_obj (l : loc) (s : state) : option obj := heap s !! l.

(** Allocation takes the next free location; nothing is ever freed. *)
Definition alloc (o : obj) : M loc :=
  fun s => (Ok (length (heap s)), set_heap (heap s ++ [o]) s).

Definition is_tensor (s : state) (v : value) : bool :=
  match v with
  | VRef l => match lookup_obj l s with
              | Some (TensorObj _ _ _) => true
              | _ => false
              end
  | _ => false
  end.

Definition is_sharded (s : state) (v : value) : bool :=
  match v with
  | VRef l => match lookup_obj l s with
              | Some (TensorObj XLAShardedTensor_cls _ _) => true
              | _ => false
              end
  | _ => false
  end.

(** ** Attribute access and calls

    Python's recursion limit: a chain of calls deeper than this raises
    [RecursionError]. *)
Definition recursion_limit : nat := 1000.

(** Built-in tensor methods that the module calls. *)
Definition tensor_methods : list string :=
  ["size"; "stride"; "storage_offset"; "detach"]%string.

Definition is_method (name : string) : bool :=
  bool_decide (name ∈ tensor_methods).

(** Attributes that the engine serves from the tensor itself: they are
    data descriptors of [torch.Tensor], so they win over the instance
    dictionary. *)
Definition tensor_field (impl : TensorImpl) (name : string) : option value :=
  if bool_decide (name = "dtype"%string) then Some (VOpaque (t_dtype impl))
  else if bool_decide (name = "layout"%string) then Some (VOpaque (t_layout impl))
  else if bool_decide (name = "device"%string) then Some (VOpaque (t_device impl))
  else if bool_decide (name = "requires_grad"%string)
       then Some (VBool (t_requires_grad impl))
  else None.

(** Class attributes of [XLAShardedTensor] that carry a value:
    [local_shards: List[XLAShard] = None].  The other annotated names
    ([global_tensor], [mesh_shape], [partition_spec]) have no class-level
    value. *)
Definition class_attr (cls : pyclass) (name : string) : option value :=
  match cls with
  | XLAShardedTensor_cls =>
      if bool_decide (name = "local_shards"%string) then Some VNone else None
  | Tensor_cls => None
  end.

(** The metadata of [t.detach()]: the same view of the same storage,
    without gradient tracking. *)
Definition detached (impl : TensorImpl) : TensorImpl :=
  {| t_size := t_size impl; t_stride := t_stride impl;
     t_storage_offset := t_storage_offset impl; t_dtype := t_dtype impl;
     t_layout := t_layout impl; t_device := t_device impl;
     t_requires_grad := false; t_storage := t_storage impl |}.

(** Calling a value without arguments, [f()], which is how the module
    calls.  Only bound tensor methods are callable; calling a
    [torch.Size], a tensor attribute or any other value is a
    [TypeError].  [detach] makes a new tensor object of the same class. *)
Definition py_call (f : value) : M value :=
  match f with
  | VMethod l name =>
      fun s =>
        match lookup_obj l s with
        | Some (TensorObj cls impl _) =>
            if bool_decide (name = "size"%string) then ret (VSize (t_size impl)) s
            else if bool_decide (name = "stride"%string)
                 then ret (VTuple (VInt <$> t_stride impl)) s
            else if bool_decide (name = "storage_offset"%string)
                 then ret (VInt (t_storage_offset impl)) s
            else if bool_decide (name = "detach"%string)
                 then (d <- alloc (TensorObj cls (detached impl) ∅) ;; ret (VRef d)) s
            else raise (TypeError "not callable") s
        | _ => raise (TypeError "not callable") s
        end
  | _ => raise (TypeError "not callable")
  end.

(** Whether [name] is served by the [size] property of the class. *)
Definition size_property (cls : pyclass) (name : string) : bool :=
  match cls with
  | XLAShardedTensor_cls => bool_decide (name = "size"%string)
  | Tensor_cls => false
  end.

(** [getattr depth v name] evaluates [v.name].

    On an [XLAShardedTensor] the name [size] is the property

    [[
    @property
    def size(self) -> torch.Size:
      "Returns the (global) shape of this tensor"
      return self.global_tensor.size()
    ]]

    which is a data descriptor and so shadows the [size] method of
    [torch.Tensor].  The property body evaluates [self.global_tensor],
    then its [size] attribute (a nested attribute access, hence [depth]),
    then calls the result. *)
Fixpoint getattr (depth : nat) (v : value) (name : string) : M value :=
  match depth with
  | O => raise RecursionError
  | S depth' =>
      match v with
      | VRef l =>
          fun s =>
            match lookup_obj l s with
            | Some (TensorObj cls impl attrs) =>
                if size_property cls name
                then (g <- getattr depth' v "global_tensor" ;;
                      m <- getattr depth' g "size" ;;
                      py_call m) s
                else
                  match tensor_field impl name with
                  | Some x => ret x s
                  | None =>
                      match attrs !! name with
                      | Some x => ret x s
                      | None =>
                          match class_attr cls name with
                          | Some x => ret x s
                          | None =>
                              if is_method name then ret (VMethod l name) s
                              else raise (AttributeError name) s
                          end
                      end
                  end
            | Some (XLAShard fields) =>
                match fields !! name with
                | Some x => ret x s
                | None => raise (AttributeError name) s
                end
            | None => raise (AttributeError name) s
            end
      | _ => raise (AttributeError name)
      end
  end.

(** [v.name()] *)
Definition call_method (v : value) (name : string) : M value :=
  m <- getattr recursion_limit v name ;; py_call m.

(** [r.name = x]: assignment of an instance attribute.  On a tensor
    object this is the slot [global_tensor] or an entry of the instance
    dictionary, as the module assigns them; on a shard record it is a
    field or any other entry of its dictionary. *)
Definition setattr (r : value) (name : string) (x : value) : M unit :=
  match r with
  | VRef l =>
      fun s =>
        match lookup_obj l s with
        | Some (TensorObj cls impl attrs) =>
            (Ok tt,
             set_heap (<[l := TensorObj cls impl (<[name := x]> attrs)]> (heap s)) s)
        | Some (XLAShard fields) =>
            (Ok tt, set_heap (<[l := XLAShard (<[name := x]> fields)]> (heap s)) s)
        | None => (Raise (AttributeError name), s)
        end
  | _ => raise (AttributeError name)
  end.

(** ** XLAShardedTensor construction *)

Fixpoint as_ints (vs : list value) : option (list Z) :=
  match vs with
  | [] => Some []
  | VInt z :: vs' => cons z <$> as_ints vs'
  | _ => None
  end.

(** [torch.Tensor._make_wrapper_subclass(cls, size, strides=...,
    storage_offset=..., dtype=..., layout=..., device=...,
    requires_grad=...)]: a new tensor object of class [cls] with the given
    metadata, no storage and no instance attribute.  Arguments of the
    wrong type are rejected by the argument parser. *)
Definition _make_wrapper_subclass (cls : pyclass)
    (size strides storage_offset dtype layout device requires_grad : value)
  : M value :=
  let dims := match size with
              | VSize d => Some d
              | VTuple vs | VList vs => as_ints vs
              | _ => None
              end in
  let strs := match strides with
              | VTuple vs | VList vs => as_ints vs
              | _ => None
              end in
  match dims, strs, storage_offset, dtype, layout, device, requires_grad with
  | Some d, Some st, VInt off, VOpaque dt, VOpaque lay, VOpaque dev, VBool rg =>
      r <- alloc (TensorObj cls
                    {| t_size := d; t_stride := st; t_storage_offset := off;
                       t_dtype := dt; t_layout := lay; t_device := dev;
                       t_requires_grad := rg; t_storage := None |} ∅) ;;
      ret (VRef r)
  | _, _, _, _, _, _, _ => raise (TypeError "_make_wrapper_subclass")
  end.

(** [kwargs.get(key, default)] *)
Fixpoint dict_get (kwargs : list (string * value)) (key : string)
    (default : value) : value :=
  match kwargs with
  | [] => default
  | (k, v) :: rest => if bool_decide (k = key) then v else dict_get rest key default
  end.

Definition truthy (v : value) : bool :=
  match v with
  | VNone => false
  | VBool b => b
  | VInt z => negb (z =? 0)
  | VStr s => negb (bool_decide (s = ""%string))
  | VSize d => negb (bool_decide (d = []))
  | VTuple vs | VList vs => negb (bool_decide (length vs = 0%nat))
  | VDict kvs => negb (bool_decide (length kvs = 0%nat))
  | _ => true
  end.

(** [[
    @staticmethod
    def new(cls, elem: torch.Tensor, mesh_shape: Tuple[int],
            partition_spec: Tuple[int, None], *args, **kwargs):
      r = torch.Tensor._make_wrapper_subclass(
          cls,
          elem.size(),
          strides=elem.stride(),
          storage_offset=elem.storage_offset(),
          dtype=elem.dtype,
          layout=elem.layout,
          device=elem.device,
          requires_grad=kwargs.get("requires_grad", False))
      r.global_tensor = elem.detach() if r.requires_grad else elem
      r.mesh_shape = mesh_shape
      r.partition_spec = partition_spec
      return r
    ]] *)
Definition new (cls : pyclass) (elem mesh_shape partition_spec : value)
    (args : list value) (kwargs : list (string * value)) : M value :=
  size <- call_method elem "size" ;;
  strides <- call_method elem "stride" ;;
  storage_offset <- call_method elem "storage_offset" ;;
  dtype <- getattr recursion_limit elem "dtype" ;;
  layout <- getattr recursion_limit elem "layout" ;;
  device <- getattr recursion_limit elem "device" ;;
  r <- _make_wrapper_subclass cls size strides storage_offset dtype layout
         device (dict_get kwargs "requires_grad" (VBool false)) ;;
  rg <- getattr recursion_limit r "requires_grad" ;;
  g <- (if truthy rg then call_method elem "detach" else ret elem) ;;
  setattr r "global_tensor" g ;;;
  setattr r "mesh_shape" mesh_shape ;;;
  setattr r "partition_spec" partition_spec ;;;
  ret r.

(** The [size] attribute of a handle (the property above). *)
Definition size (self : value) : M value :=
  getattr recursion_limit self "size".

(** [[
    def __repr__(self):
      return f"XLAShardedTensor({self.global_tensor})"
    ]]
    [format] renders the global tensor (the engine's printer). *)
Definition __repr__ (format : value -> M string) (self : value) : M value :=
  g <- getattr recursion_limit self "global_tensor" ;;
  t <- format g ;;
  ret (VStr ("XLAShardedTensor(" ++ t ++ ")")).

(** The dataclass constructor [XLAShard(data, rank)]. *)
Definition XLAShard_new (data rank : value) : M value :=
  l <- alloc (XLAShard (<["rank"%string := rank]>
                          (<["data"%string := data]> ∅))) ;;
  ret (VRef l).

(** ** Suspension of dispatch

    [torch._C._DisableTorchDispatch()] is a guard object: creating it
    excludes the Python dispatch key for the thread and remembers whether
    it was this guard that excluded it; destroying it removes what it
    added. *)
Definition _DisableTorchDispatch (s : state) : bool * state :=
  (negb (dispatch_disabled s), set_dispatch_disabled true s).

Definition del_guard (guard : bool) (s : state) : state :=
  if guard then set_dispatch_disabled false s else s.

(** [[
    @contextlib.contextmanager
    def no_dispatch() -> Iterator[None]:
      guard = torch._C._DisableTorchDispatch()
      try:
        yield
      finally:
        del guard
    ]]
    [no_dispatch body] is [with no_dispatch(): body]: the [finally]
    clause runs whether the body returns or raises, and the exception of
    the body, if any, continues. *)
Definition no_dispatch {A} (body : M A) : M A :=
  fun s =>
    let (guard, s1) := _DisableTorchDispatch s in
    let (r, s2) := body s1 in
    (r, del_guard guard s2).

(** ** Dispatch

    [torch.utils._pytree.tree_map(fn, pytree)]: tuples, lists and
    dictionaries are rebuilt around the mapped children, in order; every
    other value, [None] included, is a leaf and is replaced by [fn] of
    it. *)
Fixpoint tree_map (fn : value -> M value) (pytree : value) : M value :=
  match pytree with
  | VTuple vs => vs' <- traverse (tree_map fn) vs ;; ret (VTuple vs')
  | VList vs => vs' <- traverse (tree_map fn) vs ;; ret (VList vs')
  | VDict kvs =>
      kvs' <- traverse (fun kv => let '(k, v) := kv in
                                  v' <- tree_map fn v ;; ret (k, v')) kvs ;;
      ret (VDict kvs')
  | leaf => fn leaf
  end.

(** [cls(elem)] for a tensor class that defines neither [__new__] nor
    [__init__], as is the case of [XLAShardedTensor] (its constructor is
    the static method [new]): the call is served by [torch.Tensor], which
    makes a new object of the class over the data of [elem] and sets no
    instance attribute. *)
Definition Tensor_call (cls : pyclass) (elem : value) : M value :=
  match elem with
  | VRef l =>
      fun s =>
        match lookup_obj l s with
        | Some (TensorObj _ impl _) =>
            (r <- alloc (TensorObj cls impl ∅) ;; ret (VRef r)) s
        | _ => raise (TypeError "new(): invalid data type") s
        end
  | _ => raise (TypeError "new(): invalid data type")
  end.

(** [[
    def unwrap(elem):
      return elem.global_tensor if isinstance(elem, XLAShardedTensor) else elem

    def wrap(elem):
      return XLAShardedTensor(elem) if isinstance(elem, torch.Tensor) else elem
    ]] *)
Definition unwrap (elem : value) : M value :=
  fun s =>
    if is_sharded s elem then getattr recursion_limit elem "global_tensor" s
    else ret elem s.

Definition wrap (elem : value) : M value :=
  fun s =>
    if is_tensor s elem then Tensor_call XLAShardedTensor_cls elem s
    else ret elem s.

(** An operation of the engine, as the handler receives it: called with
    positional and keyword operands. *)
Definition operation := list value -> list (string * value) -> M value.

(** A starred argument must be an iterable and a double-starred one a
    mapping. *)
Definition star (v : value) : M (list value) :=
  match v with
  | VTuple vs | VList vs => ret vs
  | _ => raise (TypeError "argument after * must be an iterable")
  end.

Definition star_star (v : value) : M (list (string * value)) :=
  match v with
  | VDict kvs => ret kvs
  | _ => raise (TypeError "argument after ** must be a mapping")
  end.

(** [[
    @classmethod
    def __torch__dispatch__(cls, func, types, args=(), kwargs=None):
      ...
      with no_dispatch():
        # re-dispatch to C++
        rs = tree_map(wrap,
                      func( *tree_map(unwrap, args), **tree_map(unwrap, kwargs)))
      return rs
    ]]
    [args] is the tuple of positional operands; [kwargs] is a dictionary
    or, by default, [None]. *)
Definition __torch__dispatch__ (cls : pyclass) (func : operation)
    (types : list pyclass) (args : list value)
    (kwargs : option (list (string * value))) : M value :=
  rs <- no_dispatch
          (a <- tree_map unwrap (VTuple args) ;;
           k <- tree_map unwrap (from_option VDict VNone kwargs) ;;
           k' <- star_star k ;;
           a' <- star a ;;
           r <- func a' k' ;;
           tree_map wrap r) ;;
  ret rs.

(** The body of the [with no_dispatch():] block of the handler. *)
Definition dispatch_body (func : operation) (args : list value)
    (kwargs : option (list (string * value))) : M value :=
  a <- tree_map unwrap (VTuple args) ;;
  k <- tree_map unwrap (from_option VDict VNone kwargs) ;;
  k' <- star_star k ;;
  a' <- star a ;;
  r <- func a' k' ;;
  tree_map wrap r.

(** ** Shape and leaves of an operand tree *)

Inductive shape :=
  | SLeaf
  | STuple (cs : list shape)
  | SList (cs : list shape)
  | SDict (cs : list (string * shape)).

Fixpoint tree_shape (v : value) : shape :=
  match v with
  | VTuple vs => STuple (map tree_shape vs)
  | VList vs => SList (map tree_shape vs)
  | VDict kvs => SDict (map (fun kv => let '(k, x) := kv in (k, tree_shape x)) kvs)
  | _ => SLeaf
  end.

Fixpoint tree_leaves (v : value) : list value :=
  match v with
  | VTuple vs => concat (map tree_leaves vs)
  | VList vs => concat (map tree_leaves vs)
  | VDict kvs => concat (map (fun kv => let '(_, x) := kv in tree_leaves x) kvs)
  | leaf => [leaf]
  end.

(** Every reference in the tree points into the first [n] cells of the
    store. *)
Definition closed (n : nat) (v : value) : Prop :=
  Forall (fun x => match x with VRef l => (l < n)%nat | _ => True end)
         (tree_leaves v).

(** ** The engine's dispatcher

    Modelled from the spec: the compute engine that calls the handler is
    an external collaborator.  An operation is either a kernel, which
    computes on the store and may fail, or a composite whose
    implementation itself triggers operations on the operands it was
    given.  A call enters the interception handler when interception is
    not suspended and either an operand is an [XLAShardedTensor] or the
    engine is in Python mode (where every call is intercepted); otherwise
    it runs the implementation.  The handler re-dispatches [func] into the
    engine.  The engine is parametric in the handler it calls.  A chain of calls deeper than the recursion limit raises
    [RecursionError]. *)
Inductive engine_op :=
  | Kernel (k : list value -> list (string * value) -> list obj ->
                (string + value) * list obj)
  | Composite (subs : list engine_op).

Definition has_sharded (s : state) (args : list value)
    (kwargs : list (string * value)) : bool :=
  existsb (is_sharded s) (tree_leaves (VTuple args) ++ tree_leaves (VDict kwargs)).

Definition run_kernel
    (k : list value -> list (string * value) -> list obj ->
         (string + value) * list obj) : operation :=
  fun args kwargs s =>
    match k args kwargs (heap s) with
    | (inr v, h) => (Ok v, set_heap h s)
    | (inl msg, h) => (Raise (RuntimeError msg), set_heap h s)
    end.

Definition handler :=
  operation -> list value -> list (string * value) -> M value.

Fixpoint engine_call_with (intercept : handler) (depth : nat)
    (python_mode : bool) (o : engine_op) : operation :=
  fun args kwargs =>
    match depth with
    | O => raise RecursionError
    | S depth' =>
        fun s =>
          if negb (dispatch_disabled s)
             && (python_mode || has_sharded s args kwargs)
          then intercept (engine_call_with intercept depth' python_mode o)
                 args kwargs (count_interception s)
          else
            match o with
            | Kernel k => run_kernel k args kwargs s
            | Composite subs =>
                (rs <- traverse
                         (fun o' => engine_call_with intercept depth'
                                      python_mode o' args kwargs)
                         subs ;;
                 ret (VTuple rs)) s
            end
    end.

(** The engine with the handler of [XLAShardedTensor]. *)
Definition engine_call : nat -> bool -> engine_op -> operation :=
  engine_call_with
    (fun func args kwargs =>
       __torch__dispatch__ XLAShardedTensor_cls func [] args (Some kwargs)).

(** For comparison only: the handler without its [with no_dispatch():]
    guard, that is, the body of the block alone. *)
Definition unguarded_handler : handler :=
  fun func args kwargs => dispatch_body func args (Some kwargs).

Fixpoint op_depth (o : engine_op) : nat :=
  match o with
  | Kernel _ => 0
  | Composite subs => S (list_max (map op_depth subs))
  end.

(** The implementation of an operation run directly, with no
    interception at all: what the engine does for a call made while
    interception is suspended. *)
Fixpoint run_impl (o : engine_op) : operation :=
  fun args kwargs =>
    match o with
    | Kernel k => run_kernel k args kwargs
    | Composite subs =>
        rs <- traverse (fun o' => run_impl o' args kwargs) subs ;;
        ret (VTuple rs)
    end.

(** ** Vocabulary of the statements *)

(** A plain tensor: an object of class [torch.Tensor] whose instance
    dictionary does not shadow a built-in method. *)
Definition plain_tensor (s : state) (l : loc) (impl : TensorImpl) : Prop :=
  exists attrs,
    lookup_obj l s = Some (TensorObj Tensor_cls impl attrs) /\
    forall name, name ∈ tensor_methods -> attrs !! name = None.

(** The metadata of the wrapper made for a tensor. *)
Definition wrapper_impl (impl : TensorImpl) (rg : bool) : TensorImpl :=
  {| t_size := t_size impl; t_stride := t_stride impl;
     t_storage_offset := t_storage_offset impl; t_dtype := t_dtype impl;
     t_layout := t_layout impl; t_device := t_device impl;
     t_requires_grad := rg; t_storage := None |}.

(** The instance attributes of a freshly constructed handle. *)
Definition handle_attrs (g mesh_shape partition_spec : value)
  : gmap string value :=
  <["partition_spec"%string := partition_spec]>
    (<["mesh_shape"%string := mesh_shape]>
       (<["global_tensor"%string := g]> ∅)).

(** ** A running example

    The scenario of the module's own comment: an 8x10 tensor, a (4, 2)
    mesh and the partition spec (0, None). *)
Definition example_impl : TensorImpl :=
  {| t_size := [8; 10]; t_stride := [10; 1]; t_storage_offset := 0;
     t_dtype := "float32"; t_layout := "strided"; t_device := "xla:0";
     t_requires_grad := false; t_storage := Some 0%nat |}.

Definition example_state : state :=
  {| heap := [TensorObj Tensor_cls example_impl ∅];
     dispatch_disabled := false; interceptions := 0 |}.

Definition example_mesh : value := VTuple [VInt 4; VInt 2].

Definition example_spec : value := VTuple [VInt 0; VNone].

(** The state after [new(XLAShardedTensor, t, (4, 2), (0, None))]: the
    tensor at location 0 and its handle at location 1. *)
Definition example_handle_state : state :=
  (new XLAShardedTensor_cls (VRef 0%nat) example_mesh example_spec [] []
     example_state).2.

(** The rank of a tensor and the length of a partition spec. *)
Definition rank (impl : TensorImpl) : nat := length (t_size impl).

Definition spec_length (partition_spec : value) : option nat :=
  match partition_spec with
  | VTuple vs | VList vs => Some (length vs)
  | _ => None
  end.

(** [respects R E m]: running [m] relates the state before to the state
    after by [R], and [m] raises only exceptions in [E]. *)
Definition respects {A} (R : state -> state -> Prop) (E : exn -> Prop)
    (m : M A) : Prop :=
  forall s, R s (m s).2 /\ forall e, (m s).1 = Raise e -> E e.

(** What the component never touches: the suspension flag, the count of
    interceptions, and every [XLAShard] record of the store; and a tensor
    object stays a tensor object. *)
Definition shards_kept (s s' : state) : Prop :=
  forall l fields,
    lookup_obj l s = Some (XLAShard fields) ->
    lookup_obj l s' = Some (XLAShard fields).

Definition tensors_kept (s s' : state) : Prop :=
  forall v, is_tensor s v = true -> is_tensor s' v = true.

Definition frame (s s' : state) : Prop :=
  dispatch_disabled s' = dispatch_disabled s /\
  interceptions s' = interceptions s /\
  shards_kept s s' /\
  tensors_kept s s'.

(** The fully unwrapped operands, in the words of the specification:
    every sharded handle is replaced by its [global_tensor], every other
    value passes through, and the containers are kept.  There is no
    result when a handle has no [global_tensor]. *)
Definition unwrapped_leaf (h : list obj) (v : value) : option value :=
  match v with
  | VRef l =>
      match h !! l with
      | Some (TensorObj XLAShardedTensor_cls _ attrs) =>
          attrs !! "global_tensor"%string
      | _ => Some v
      end
  | _ => Some v
  end.

Fixpoint unwrapped (h : list obj) (v : value) : option value :=
  match v with
  | VTuple vs => VTuple <$> mapM (unwrapped h) vs
  | VList vs => VList <$> mapM (unwrapped h) vs
  | VDict kvs =>
      VDict <$> mapM (fun kv => let '(k, x) := kv in
                                pair k <$> unwrapped h x) kvs
  | leaf => unwrapped_leaf h leaf
  end.

(** [rewrapped before after x x']: the leaf [x] of a result, read in the
    store [before], and what the handler returns for it, read in the
    store [after].  A tensor becomes a reference to a new object of class
    [XLAShardedTensor] over the same data and with no instance attribute,
    hence without a [global_tensor]: this is what [wrap] makes, not a
    handle as [new] builds it.  Any other leaf is unchanged. *)
Definition rewrapped (before after : list obj) (x x' : value) : Prop :=
  match x with
  | VRef l =>
      match before !! l with
      | Some (TensorObj _ impl _) =>
          exists l', x' = VRef l' /\ before !! l' = None /\
                     after !! l' = Some (TensorObj XLAShardedTensor_cls impl ∅)
      | _ => x' = x
      end
  | _ => x' = x
  end.

(** An operation that always fails, and an example state that also holds
    a shard record. *)
Definition failing_op : operation :=
  fun _ _ => raise (RuntimeError "boom").

Definition example_shard : obj :=
  XLAShard (<["rank"%string := VInt 3]> (<["data"%string := VRef 0%nat]> ∅)).

Definition example_shard_state : state :=
  {| heap := [TensorObj Tensor_cls example_impl ∅; example_shard];
     dispatch_disabled := false; interceptions := 0 |}.

(** The entry points of the component. *)
Inductive component_call :=
  | call_XLAShard (data rank : value)
  | call_new (cls : pyclass) (elem mesh_shape partition_spec : value)
      (args : list value) (kwargs : list (string * value))
  | call_size (self : value)
  | call_repr (format : value -> M string) (self : value)
  | call_dispatch (cls : pyclass) (func : operation) (types : list pyclass)
      (args : list value) (kwargs : option (list (string * value))).

Definition run_component (c : component_call) : M value :=
  match c with
  | call_XLAShard data rank => XLAShard_new data rank
  | call_new cls elem mesh_shape partition_spec args kwargs =>
      new cls elem mesh_shape partition_spec args kwargs
  | call_size self => size self
  | call_repr format self => __repr__ format self
  | call_dispatch cls func types args kwargs =>
      __torch__dispatch__ cls func types args kwargs
  end.

(** No constraint on the exceptions raised. *)
Definition any_exn : exn -> Prop := fun _ => True.

(** The code that a call receives from outside the component (the
    engine's printer, the dispatched operation) keeps the shard records. *)
Definition callbacks_keep_shards (c : component_call) : Prop :=
  match c with
  | call_repr format _ =>
      forall v, respects shards_kept any_exn (format v)
  | call_dispatch _ func _ _ _ =>
      forall a k, respects shards_kept any_exn (func a k)
  | _ => True
  end.

(** [holds I E m]: [m] keeps the state invariant [I] and raises only
    exceptions in [E]. *)
Definition holds {A} (I : state -> Prop) (E : exn -> Prop) (m : M A) : Prop :=
  forall s, I s -> I (m s).2 /\ forall e, (m s).1 = Raise e -> E e.

(** Interception is suspended and has been entered [n] times. *)
Definition suspended_at (n : nat) (s : state) : Prop :=
  dispatch_disabled s = true /\ interceptions s = n.

Definition not_recursion (e : exn) : Prop := e <> RecursionError.

(** The state in which the engine hands an intercepted call to the
    handler's block: the interception has been counted, and the guard of
    [no_dispatch] has suspended interception. *)
Definition entered (s : state) : state :=
  set_dispatch_disabled true (count_interception s).

(** An example operation: a composite of a kernel and of a composite of
    two kernels, each returning its positional operands. *)
Definition example_kernel : engine_op :=
  Kernel (fun args _ h => (inr (VList args), h)).

Definition example_op : engine_op :=
  Composite [example_kernel; Composite [example_kernel; example_kernel]].

(** An example operation that returns its operands in a nested result,
    next to a non-tensor value. *)
Definition echo_op : operation :=
  fun args kwargs => ret (VTuple [VList args; VDict kwargs; VInt 3]).

(** [extends s s']: the store of [s'] is the store of [s] followed by new
    cells, so every object of [s] is in [s'] unchanged, and the suspension
    flag and the count of interceptions are the same. *)
Definition extends (s s' : state) : Prop :=
  dispatch_disabled s' = dispatch_disabled s /\
  interceptions s' = interceptions s /\
  heap s `prefix_of` heap s'.

(** The state after the handler has wrapped the example tensor: the
    tensor at location 0 and the handle that [wrap] made at location 1. *)
Definition example_wrapped_state : state :=
  (wrap (VRef 0%nat) example_state).2.




(** The example with two handles on the same tensor, at locations 1 and
    2. *)
Definition example_two_handles_state : state :=
  (new XLAShardedTensor_cls (VRef 0%nat) example_mesh example_spec [] []
     example_handle_state).2.

(** * Properties *)

(** ** Induction on operand trees *)

Lemma value_tree_ind (P : value -> Prop) :
  (forall v, tree_shape v = SLeaf -> P v) ->
  (forall vs, Forall P vs -> P (VTuple vs)) ->
  (forall vs, Forall P vs -> P (VList vs)) ->
  (forall kvs, Forall (fun kv => P kv.2) kvs -> P (VDict kvs)) ->
  forall v, P v.
Proof.
  intros Hleaf Htuple Hlist Hdict.
  fix IH 1. intros v.
  destruct v as [| | | | | | | |vs|vs|kvs];
    try (apply Hleaf; reflexivity).
  - apply Htuple. induction vs as [|x xs IHxs]; constructor; [apply IH|apply IHxs].
  - apply Hlist. induction vs as [|x xs IHxs]; constructor; [apply IH|apply IHxs].
  - apply Hdict. induction kvs as [|[k x] xs IHxs]; constructor; [apply IH|apply IHxs].
Qed.

(** ** The monad *)

Lemma bind_ok {A B} (m : M A) (k : A -> M B) s a s' :
  m s = (Ok a, s') -> bind m k s = k a s'.
Proof. intros H. unfold bind. by rewrite H. Qed.

(** ** Plain tensors and attribute access *)

Lemma getattr_plain_method d s l impl name :
  plain_tensor s l impl -> name ∈ tensor_methods ->
  getattr (S d) (VRef l) name s = (Ok (VMethod l name), s).
Proof.
  intros (attrs & Hl & Hno) Hin. cbn [getattr]. rewrite Hl.
  rewrite (Hno _ Hin).
  assert (tensor_field impl name = None) as ->.
  { unfold tensor_methods in Hin.
    repeat (apply elem_of_cons in Hin as [->|Hin]; [reflexivity|]).
    by apply elem_of_nil in Hin. }
  cbn. unfold is_method. by rewrite bool_decide_eq_true_2.
Qed.

Lemma call_method_plain s l impl name :
  plain_tensor s l impl -> name ∈ tensor_methods ->
  call_method (VRef l) name s = py_call (VMethod l name) s.
Proof.
  intros Hp Hin. unfold call_method, recursion_limit.
  by rewrite (bind_ok _ _ _ _ _ (getattr_plain_method _ _ _ _ _ Hp Hin)).
Qed.

Lemma getattr_field d s l cls impl attrs name x :
  lookup_obj l s = Some (TensorObj cls impl attrs) ->
  tensor_field impl name = Some x ->
  getattr (S d) (VRef l) name s = (Ok x, s).
Proof.
  intros Hl Hf. cbn [getattr]. rewrite Hl, Hf.
  assert (size_property cls name = false) as ->; [|done].
  destruct cls; [done|]. apply bool_decide_eq_false_2. intros ->. discriminate.
Qed.

(** Reading an instance attribute other than [size] that the engine does
    not serve. *)
Lemma getattr_attr d s l cls impl attrs name :
  lookup_obj l s = Some (TensorObj cls impl attrs) ->
  tensor_field impl name = None ->
  name <> "size"%string ->
  getattr (S d) (VRef l) name s =
    match attrs !! name with
    | Some x => (Ok x, s)
    | None =>
        match class_attr cls name with
        | Some x => (Ok x, s)
        | None => if is_method name then (Ok (VMethod l name), s)
                  else (Raise (AttributeError name), s)
        end
    end.
Proof.
  intros Hl Hf Hn. cbn [getattr]. rewrite Hl, Hf.
  assert (size_property cls name = false) as ->.
  { destruct cls; [done|]. by apply bool_decide_eq_false_2. }
  destruct (attrs !! name); [done|].
  destruct (class_attr cls name); [done|].
  by destruct (is_method name).
Qed.

(** ** Construction *)

Lemma as_ints_VInt (zs : list Z) : as_ints (VInt <$> zs) = Some zs.
Proof. induction zs as [|z zs IH]; [done|]. cbn. by rewrite IH. Qed.

Lemma lookup_obj_alloc l o s :
  lookup_obj l (set_heap (heap s ++ [o]) s) =
    if decide (l = length (heap s)) then Some o
    else lookup_obj l s.
Proof.
  unfold lookup_obj. cbn. case_decide as Hd.
  - subst. by apply list_lookup_middle.
  - destruct (decide (l < length (heap s))%nat).
    + by rewrite lookup_app_l.
    + rewrite !lookup_ge_None_2; [done|lia|]. rewrite length_app. cbn. lia.
Qed.


Lemma py_call_method s l cls impl attrs name :
  lookup_obj l s = Some (TensorObj cls impl attrs) ->
  py_call (VMethod l name) s =
    if bool_decide (name = "size"%string) then (Ok (VSize (t_size impl)), s)
    else if bool_decide (name = "stride"%string)
         then (Ok (VTuple (VInt <$> t_stride impl)), s)
    else if bool_decide (name = "storage_offset"%string)
         then (Ok (VInt (t_storage_offset impl)), s)
    else if bool_decide (name = "detach"%string)
         then (Ok (VRef (length (heap s))),
               set_heap (heap s ++ [TensorObj cls (detached impl) ∅]) s)
    else (Raise (TypeError "not callable"), s).
Proof. intros Hl. cbn. rewrite Hl. by repeat case_bool_decide. Qed.

Lemma call_method_plain_eval s l impl name :
  plain_tensor s l impl -> name ∈ tensor_methods ->
  call_method (VRef l) name s =
    if bool_decide (name = "size"%string) then (Ok (VSize (t_size impl)), s)
    else if bool_decide (name = "stride"%string)
         then (Ok (VTuple (VInt <$> t_stride impl)), s)
    else if bool_decide (name = "storage_offset"%string)
         then (Ok (VInt (t_storage_offset impl)), s)
    else (Ok (VRef (length (heap s))),
          set_heap (heap s ++ [TensorObj Tensor_cls (detached impl) ∅]) s).
Proof.
  intros Hp Hin. rewrite (call_method_plain _ _ _ _ Hp Hin).
  destruct Hp as (attrs & Hl & _). rewrite (py_call_method _ _ _ _ _ _ Hl).
  unfold tensor_methods in Hin.
  repeat (apply elem_of_cons in Hin as [->|Hin]; [reflexivity|]).
  by apply elem_of_nil in Hin.
Qed.

Lemma plain_tensor_alloc s l impl o :
  plain_tensor s l impl -> plain_tensor (set_heap (heap s ++ [o]) s) l impl.
Proof.
  intros (attrs & Hl & Hno). exists attrs. split; [|done].
  rewrite lookup_obj_alloc. case_decide; [|done].
  subst. unfold lookup_obj in Hl. apply lookup_lt_Some in Hl. lia.
Qed.

Ltac step H := rewrite (bind_ok _ _ _ _ _ H).

Lemma set_heap_set_heap h h' s : set_heap h (set_heap h' s) = set_heap h s.
Proof. reflexivity. Qed.

Lemma make_wrapper_subclass_ok cls d st off dt lay dev rg s :
  _make_wrapper_subclass cls (VSize d) (VTuple (VInt <$> st)) (VInt off)
    (VOpaque dt) (VOpaque lay) (VOpaque dev) (VBool rg) s =
  (Ok (VRef (length (heap s))),
   set_heap
     (heap s ++
      [TensorObj cls
         {| t_size := d; t_stride := st; t_storage_offset := off;
            t_dtype := dt; t_layout := lay; t_device := dev;
            t_requires_grad := rg; t_storage := None |} ∅]) s).
Proof. unfold _make_wrapper_subclass. by rewrite as_ints_VInt. Qed.

(** Assignment to an attribute of the object that sits right after the
    cells [h]. *)
Lemma setattr_at h cls impl attrs rest name x s :
  setattr (VRef (length h)) name x
    (set_heap (h ++ TensorObj cls impl attrs :: rest) s) =
  (Ok tt, set_heap (h ++ TensorObj cls impl (<[name := x]> attrs) :: rest) s).
Proof.
  unfold setattr, lookup_obj. cbn [heap set_heap].
  rewrite list_lookup_middle by done.
  rewrite set_heap_set_heap. f_equal. f_equal.
  rewrite insert_app_r_alt by lia. by rewrite Nat.sub_diag.
Qed.

(** What [new] does on a plain tensor, by whether gradient tracking is
    requested. *)
Lemma new_plain cls s l impl mesh_shape partition_spec args kwargs b :
  plain_tensor s l impl ->
  dict_get kwargs "requires_grad" (VBool false) = VBool b ->
  new cls (VRef l) mesh_shape partition_spec args kwargs s =
    (Ok (VRef (length (heap s))),
     set_heap
       (heap s ++
        if b
        then [TensorObj cls (wrapper_impl impl true)
                (handle_attrs (VRef (S (length (heap s)))) mesh_shape partition_spec);
              TensorObj Tensor_cls (detached impl) ∅]
        else [TensorObj cls (wrapper_impl impl false)
                (handle_attrs (VRef l) mesh_shape partition_spec)])
       s).
Proof.
  intros Hp Hrg. pose proof Hp as (attrs & Hl & Hno).
  assert (forall name, name ∈ ["size"; "stride"; "storage_offset"; "detach"]%string ->
            name ∈ tensor_methods) as Hm by done.
  unfold new.
  step (call_method_plain_eval s l impl "size" Hp ltac:(set_solver)).
  step (call_method_plain_eval s l impl "stride" Hp ltac:(set_solver)).
  step (call_method_plain_eval s l impl "storage_offset" Hp ltac:(set_solver)).
  step (getattr_field 999 s l _ _ _ "dtype" _ Hl eq_refl).
  step (getattr_field 999 s l _ _ _ "layout" _ Hl eq_refl).
  step (getattr_field 999 s l _ _ _ "device" _ Hl eq_refl).
  rewrite Hrg.
  step (make_wrapper_subclass_ok cls (t_size impl) (t_stride impl)
          (t_storage_offset impl) (t_dtype impl) (t_layout impl)
          (t_device impl) b s).
  fold (wrapper_impl impl b).
  set (s1 := set_heap (heap s ++ [TensorObj cls (wrapper_impl impl b) ∅]) s).
  assert (lookup_obj (length (heap s)) s1 =
          Some (TensorObj cls (wrapper_impl impl b) ∅)) as Hr.
  { unfold s1. rewrite lookup_obj_alloc. by rewrite decide_True. }
  step (getattr_field 999 s1 _ _ _ _ "requires_grad" _ Hr eq_refl).
  cbn [truthy wrapper_impl t_requires_grad].
  destruct b.
  - assert (plain_tensor s1 l impl) as Hp1 by by apply plain_tensor_alloc.
    step (call_method_plain_eval s1 l impl "detach" Hp1 ltac:(set_solver)).
    unfold s1. cbn [heap set_heap]. rewrite set_heap_set_heap.
    rewrite length_app. cbn [length]. rewrite Nat.add_1_r.
    rewrite <- app_assoc. cbn [app].
    step (setattr_at (heap s) cls (wrapper_impl impl true) ∅
            [TensorObj Tensor_cls (detached impl) ∅] "global_tensor"
            (VRef (S (length (heap s)))) s).
    step (setattr_at (heap s) cls (wrapper_impl impl true)
            (<["global_tensor"%string := VRef (S (length (heap s)))]> ∅)
            [TensorObj Tensor_cls (detached impl) ∅] "mesh_shape"
            mesh_shape s).
    step (setattr_at (heap s) cls (wrapper_impl impl true)
            (<["mesh_shape"%string := mesh_shape]>
               (<["global_tensor"%string := VRef (S (length (heap s)))]> ∅))
            [TensorObj Tensor_cls (detached impl) ∅] "partition_spec"
            partition_spec s).
    reflexivity.
  - unfold bind at 1, ret at 1. unfold s1.
    step (setattr_at (heap s) cls (wrapper_impl impl false) ∅ []
            "global_tensor" (VRef l) s).
    step (setattr_at (heap s) cls (wrapper_impl impl false)
            (<["global_tensor"%string := VRef l]> ∅) [] "mesh_shape"
            mesh_shape s).
    step (setattr_at (heap s) cls (wrapper_impl impl false)
            (<["mesh_shape"%string := mesh_shape]>
               (<["global_tensor"%string := VRef l]> ∅)) []
            "partition_spec" partition_spec s).
    reflexivity.
Qed.

(** ** The size property *)

Lemma recursion_limit_S : recursion_limit = S (S 998).
Proof. reflexivity. Qed.

(** One step of [getattr] on a tensor object. *)
Lemma getattr_tensor d s l cls impl attrs name :
  lookup_obj l s = Some (TensorObj cls impl attrs) ->
  getattr (S d) (VRef l) name s =
    if size_property cls name
    then (g <- getattr d (VRef l) "global_tensor" ;;
          m <- getattr d g "size" ;; py_call m) s
    else
      match tensor_field impl name with
      | Some x => (Ok x, s)
      | None =>
          match attrs !! name with
          | Some x => (Ok x, s)
          | None =>
              match class_attr cls name with
              | Some x => (Ok x, s)
              | None =>
                  if is_method name then (Ok (VMethod l name), s)
                  else (Raise (AttributeError name), s)
              end
          end
      end.
Proof.
  intros Hl. cbn [getattr]. rewrite Hl.
  destruct (size_property cls name); [done|].
  destruct (tensor_field impl name); [done|].
  destruct (attrs !! name); [done|].
  destruct (class_attr cls name); [done|].
  by destruct (is_method name).
Qed.

(** On a handle whose [global_tensor] is a plain tensor, [size] is the
    shape of that tensor, and reading it leaves the state alone. *)
Lemma getattr_size_handle d s h himpl attrs g gimpl :
  lookup_obj h s = Some (TensorObj XLAShardedTensor_cls himpl attrs) ->
  attrs !! "global_tensor"%string = Some (VRef g) ->
  plain_tensor s g gimpl ->
  getattr (S (S d)) (VRef h) "size" s = (Ok (VSize (t_size gimpl)), s).
Proof.
  intros Hh Hg Hp.
  rewrite (getattr_tensor _ _ _ _ _ _ _ Hh).
  change (size_property XLAShardedTensor_cls "size") with true. cbv iota.
  assert (getattr (S d) (VRef h) "global_tensor" s = (Ok (VRef g), s)) as Hgt.
  { rewrite (getattr_attr d s h _ _ _ "global_tensor" Hh) by done.
    by rewrite Hg. }
  step Hgt.
  step (getattr_plain_method d s g gimpl "size" Hp ltac:(set_solver)).
  destruct Hp as (gattrs & Hl & _).
  by rewrite (py_call_method _ _ _ _ _ "size" Hl).
Qed.

Lemma size_of_handle s h himpl attrs g gimpl :
  lookup_obj h s = Some (TensorObj XLAShardedTensor_cls himpl attrs) ->
  attrs !! "global_tensor"%string = Some (VRef g) ->
  plain_tensor s g gimpl ->
  size (VRef h) s = (Ok (VSize (t_size gimpl)), s).
Proof.
  intros Hh Hg Hp. unfold size. rewrite recursion_limit_S.
  by apply (getattr_size_handle _ _ _ _ _ _ _ Hh Hg Hp).
Qed.

(** A handle without [global_tensor]: reading the attribute raises, and
    so does everything that reads it. *)
Lemma getattr_no_global_tensor d s h himpl attrs :
  lookup_obj h s = Some (TensorObj XLAShardedTensor_cls himpl attrs) ->
  attrs !! "global_tensor"%string = None ->
  getattr (S d) (VRef h) "global_tensor" s
    = (Raise (AttributeError "global_tensor"), s).
Proof.
  intros Hh Hg.
  rewrite (getattr_attr _ _ _ _ _ _ "global_tensor" Hh) by done.
  by rewrite Hg.
Qed.

Lemma size_no_global_tensor s h himpl attrs :
  lookup_obj h s = Some (TensorObj XLAShardedTensor_cls himpl attrs) ->
  attrs !! "global_tensor"%string = None ->
  size (VRef h) s = (Raise (AttributeError "global_tensor"), s).
Proof.
  intros Hh Hg. unfold size. rewrite recursion_limit_S.
  rewrite (getattr_tensor _ _ _ _ _ _ "size" Hh).
  change (size_property XLAShardedTensor_cls "size") with true. cbv iota.
  unfold bind at 1. by rewrite (getattr_no_global_tensor _ _ _ _ _ Hh Hg).
Qed.

(** The same, with the handle cell in one place: the handle sits right
    after the old cells, followed by the detached copy when there is
    one. *)
Lemma new_plain_cell cls s l impl mesh_shape partition_spec args kwargs b :
  plain_tensor s l impl ->
  dict_get kwargs "requires_grad" (VBool false) = VBool b ->
  new cls (VRef l) mesh_shape partition_spec args kwargs s =
    (Ok (VRef (length (heap s))),
     set_heap
       (heap s ++
        TensorObj cls (wrapper_impl impl b)
          (handle_attrs (if b then VRef (S (length (heap s))) else VRef l)
             mesh_shape partition_spec)
        :: (if b then [TensorObj Tensor_cls (detached impl) ∅] else []))
       s).
Proof.
  intros Hp Hrg. rewrite (new_plain _ _ _ _ _ _ _ _ _ Hp Hrg). by destruct b.
Qed.

Lemma lookup_obj_middle h o rest s :
  lookup_obj (length h) (set_heap (h ++ o :: rest) s) = Some o.
Proof. unfold lookup_obj. cbn [heap set_heap]. by apply list_lookup_middle. Qed.

Lemma lookup_obj_prefix h rest s l :
  (l < length h)%nat ->
  lookup_obj l (set_heap (h ++ rest) s) = h !! l.
Proof. intros Hl. unfold lookup_obj. cbn [heap set_heap]. by apply lookup_app_l. Qed.

Lemma plain_tensor_extend s l impl rest :
  plain_tensor s l impl -> plain_tensor (set_heap (heap s ++ rest) s) l impl.
Proof.
  intros (attrs & Hl & Hno). exists attrs. split; [|done].
  rewrite lookup_obj_prefix; [done|].
  by apply lookup_lt_Some in Hl.
Qed.

(** From here on [getattr] is used through its lemmas only: unfolding it
    at the recursion limit is never wanted. *)
Opaque getattr.

(** ** Claims about construction *)

Lemma example_plain : plain_tensor example_state 0%nat example_impl.
Proof. exists ∅. split; [reflexivity|]. intros name _. apply lookup_empty. Qed.

(** C2 fails on the code: a rank-2 tensor with a partition spec of
    length 1 is accepted. *)
Lemma C2_counterexample :
  spec_length (VTuple [VInt 0]) <> Some (rank example_impl) /\
  (new XLAShardedTensor_cls (VRef 0%nat) example_mesh (VTuple [VInt 0]) [] []
     example_state).1 = Ok (VRef 1%nat).
Proof.
  split; [discriminate|].
  by rewrite (new_plain _ _ _ _ _ _ _ _ false example_plain).
Qed.

(** C2, amended: for every plain tensor [elem], mesh shape and partition
    spec, whatever the length of the partition spec (also when it differs
    from the rank of [elem]), construction succeeds, returns a new handle
    and stores the partition spec as it was given: [new] performs no
    matching of the partition spec against the rank. *)
Theorem C2_no_length_validation s l impl mesh_shape partition_spec args kwargs b :
  plain_tensor s l impl ->
  dict_get kwargs "requires_grad" (VBool false) = VBool b ->
  exists r s',
    new XLAShardedTensor_cls (VRef l) mesh_shape partition_spec args kwargs s
      = (Ok (VRef r), s') /\
    lookup_obj r s = None /\
    is_sharded s' (VRef r) = true /\
    getattr recursion_limit (VRef r) "partition_spec" s'
      = (Ok partition_spec, s').
Proof.
  intros Hp Hrg. eexists _, _. split; [by apply new_plain_cell|].
  split; [apply lookup_ge_None_2; lia|].
  split.
  { unfold is_sharded. by rewrite lookup_obj_middle. }
  rewrite recursion_limit_S.
  erewrite getattr_attr; [|apply lookup_obj_middle|done|done].
  unfold handle_attrs. by rewrite lookup_insert_eq.
Qed.

Lemma C2_no_length_validation_witness :
  exists r s',
    new XLAShardedTensor_cls (VRef 0%nat) example_mesh (VTuple [VInt 0]) [] []
      example_state = (Ok (VRef r), s') /\
    lookup_obj r example_state = None /\
    is_sharded s' (VRef r) = true /\
    getattr recursion_limit (VRef r) "partition_spec" s'
      = (Ok (VTuple [VInt 0]), s').
Proof.
  apply (C2_no_length_validation example_state 0%nat example_impl example_mesh
           (VTuple [VInt 0]) [] [] false).
  - exact example_plain.
  - reflexivity.
Defined.

(** C3: the handle that [new] builds from a plain tensor reports the
    shape of that tensor as its size.  The query returns the same value
    on every call and leaves the state as it found it, and it does not
    depend on [local_shards]: whatever is stored there, the size is the
    shape of the global tensor.  (No assumption on the partition spec is
    needed.) *)
Theorem C3_size_is_global_shape s l impl mesh_shape partition_spec args kwargs b :
  plain_tensor s l impl ->
  dict_get kwargs "requires_grad" (VBool false) = VBool b ->
  exists r s',
    new XLAShardedTensor_cls (VRef l) mesh_shape partition_spec args kwargs s
      = (Ok (VRef r), s') /\
    size (VRef r) s' = (Ok (VSize (t_size impl)), s') /\
    (x <- size (VRef r) ;; y <- size (VRef r) ;; ret (x, y)) s'
      = (Ok (VSize (t_size impl), VSize (t_size impl)), s') /\
    forall shards,
      (setattr (VRef r) "local_shards" shards ;;; size (VRef r)) s'
        = (Ok (VSize (t_size impl)),
           (setattr (VRef r) "local_shards" shards s').2).
Proof.
  intros Hp Hrg. eexists _, _. split; [by apply new_plain_cell|].
  set (g := if b then VRef (S (length (heap s))) else VRef l).
  set (tl := if b then [TensorObj Tensor_cls (detached impl) ∅] else []).
  assert (forall at',
            at' !! "global_tensor"%string = Some g ->
            size (VRef (length (heap s)))
              (set_heap (heap s ++ TensorObj XLAShardedTensor_cls
                           (wrapper_impl impl b) at' :: tl) s)
            = (Ok (VSize (t_size impl)),
               set_heap (heap s ++ TensorObj XLAShardedTensor_cls
                           (wrapper_impl impl b) at' :: tl) s)) as Hsize.
  { intros at' Hat. unfold g, tl in *. destruct b.
    - eapply (size_of_handle _ _ _ _ _ (detached impl));
        [apply lookup_obj_middle|exact Hat|].
      exists ∅. split; [|intros; apply lookup_empty].
      unfold lookup_obj. cbn [heap set_heap].
      change (heap s ++ ?x :: ?y :: []) with (heap s ++ [x] ++ y :: []).
      rewrite app_assoc.
      replace (S (length (heap s))) with (length (heap s ++
        [TensorObj XLAShardedTensor_cls (wrapper_impl impl true) at']))
        by (rewrite length_app; cbn; lia).
      by apply list_lookup_middle.
    - eapply (size_of_handle _ _ _ _ _ impl);
        [apply lookup_obj_middle|exact Hat|].
      by apply plain_tensor_extend. }
  assert (handle_attrs g mesh_shape partition_spec !! "global_tensor"%string
          = Some g) as Hg.
  { unfold handle_attrs. rewrite !lookup_insert_ne by done.
    by rewrite lookup_insert_eq. }
  split; [by apply Hsize|].
  split.
  { step (Hsize _ Hg). by step (Hsize _ Hg). }
  intros shards.
  rewrite setattr_at. step (setattr_at (heap s) XLAShardedTensor_cls
    (wrapper_impl impl b) (handle_attrs g mesh_shape partition_spec) tl
    "local_shards" shards s).
  apply Hsize. rewrite lookup_insert_ne by done. exact Hg.
Qed.

Lemma C3_size_is_global_shape_witness :
  exists r s',
    new XLAShardedTensor_cls (VRef 0%nat) example_mesh example_spec [] []
      example_state = (Ok (VRef r), s') /\
    size (VRef r) s' = (Ok (VSize [8; 10]), s') /\
    (x <- size (VRef r) ;; y <- size (VRef r) ;; ret (x, y)) s'
      = (Ok (VSize [8; 10], VSize [8; 10]), s') /\
    forall shards,
      (setattr (VRef r) "local_shards" shards ;;; size (VRef r)) s'
        = (Ok (VSize [8; 10]),
           (setattr (VRef r) "local_shards" shards s').2).
Proof.
  apply (C3_size_is_global_shape example_state 0%nat example_impl example_mesh
           example_spec [] [] false).
  - exact example_plain.
  - reflexivity.
Defined.

Lemma plain_tensor_lookup s l impl :
  plain_tensor s l impl ->
  exists attrs, lookup_obj l s = Some (TensorObj Tensor_cls impl attrs).
Proof. intros (attrs & Hl & _). eauto. Qed.

(** C4: when gradient tracking is requested, the [global_tensor] of the
    new handle is a new object, distinct from [elem], that views the
    storage of [elem] with the same metadata and does not track gradients
    (the result of [elem.detach()]); when it is not requested,
    [global_tensor] is [elem] itself, the very same object, which [new]
    leaves untouched. *)
Theorem C4_global_tensor_detached_or_same s l impl mesh_shape partition_spec
    args kwargs b :
  plain_tensor s l impl ->
  dict_get kwargs "requires_grad" (VBool false) = VBool b ->
  exists r s',
    new XLAShardedTensor_cls (VRef l) mesh_shape partition_spec args kwargs s
      = (Ok (VRef r), s') /\
    lookup_obj l s' = lookup_obj l s /\
    if b
    then exists d,
           getattr recursion_limit (VRef r) "global_tensor" s'
             = (Ok (VRef d), s') /\
           d <> l /\ lookup_obj d s = None /\
           lookup_obj d s' = Some (TensorObj Tensor_cls (detached impl) ∅) /\
           t_requires_grad (detached impl) = false /\
           t_storage (detached impl) = t_storage impl /\
           t_size (detached impl) = t_size impl
    else getattr recursion_limit (VRef r) "global_tensor" s'
           = (Ok (VRef l), s').
Proof.
  intros Hp Hrg. eexists _, _. split; [by apply new_plain_cell|].
  destruct (plain_tensor_lookup _ _ _ Hp) as (attrs & Hl).
  pose proof (lookup_lt_Some _ _ _ Hl) as Hlt.
  split; [by rewrite lookup_obj_prefix|].
  assert (forall g tl,
    getattr recursion_limit (VRef (length (heap s)))  "global_tensor"
      (set_heap (heap s ++ TensorObj XLAShardedTensor_cls (wrapper_impl impl b)
                   (handle_attrs g mesh_shape partition_spec) :: tl) s)
    = (Ok g, set_heap (heap s ++ TensorObj XLAShardedTensor_cls
                   (wrapper_impl impl b)
                   (handle_attrs g mesh_shape partition_spec) :: tl) s)) as Hg.
  { intros g tl. rewrite recursion_limit_S.
    erewrite getattr_attr; [|apply lookup_obj_middle|done|done].
    unfold handle_attrs. rewrite !lookup_insert_ne by done.
    by rewrite lookup_insert_eq. }
  destruct b; [|apply Hg].
  exists (S (length (heap s))). split; [apply Hg|].
  split; [lia|]. split; [apply lookup_ge_None_2; lia|].
  split; [|done].
  unfold lookup_obj. cbn [heap set_heap].
  change (heap s ++ ?x :: ?y :: []) with (heap s ++ [x] ++ y :: []).
  rewrite app_assoc. apply list_lookup_middle. rewrite length_app. cbn. lia.
Qed.

Lemma C4_global_tensor_detached_or_same_witness :
  exists r s',
    new XLAShardedTensor_cls (VRef 0%nat) example_mesh example_spec []
      [("requires_grad"%string, VBool true)] example_state
      = (Ok (VRef r), s') /\
    lookup_obj 0%nat s' = lookup_obj 0%nat example_state /\
    exists d,
      getattr recursion_limit (VRef r) "global_tensor" s' = (Ok (VRef d), s') /\
      d <> 0%nat /\ lookup_obj d example_state = None /\
      lookup_obj d s' = Some (TensorObj Tensor_cls (detached example_impl) ∅) /\
      t_requires_grad (detached example_impl) = false /\
      t_storage (detached example_impl) = t_storage example_impl /\
      t_size (detached example_impl) = t_size example_impl.
Proof.
  apply (C4_global_tensor_detached_or_same example_state 0%nat example_impl
           example_mesh example_spec []
           [("requires_grad"%string, VBool true)] true).
  - exact example_plain.
  - reflexivity.
Defined.

(** X16: on a handle whose [global_tensor] is a plain tensor, as [new]
    builds it, [size] is an attribute, not a method.  Reading [h.size]
    yields the shape of the global tensor directly, and calling the
    result, as in [h.size()], raises a [TypeError] because a shape is not
    callable.  On the plain tensor underneath, [size] is still the bound
    method and [t.size()] returns the shape: the property shadows the
    method of the tensor type. *)
Theorem X16_size_shadows_method s h himpl attrs g gimpl :
  lookup_obj h s = Some (TensorObj XLAShardedTensor_cls himpl attrs) ->
  attrs !! "global_tensor"%string = Some (VRef g) ->
  plain_tensor s g gimpl ->
  getattr recursion_limit (VRef h) "size" s = (Ok (VSize (t_size gimpl)), s) /\
  call_method (VRef h) "size" s = (Raise (TypeError "not callable"), s) /\
  getattr recursion_limit (VRef g) "size" s = (Ok (VMethod g "size"), s) /\
  call_method (VRef g) "size" s = (Ok (VSize (t_size gimpl)), s).
Proof.
  intros Hh Hg Hp.
  pose proof (size_of_handle _ _ _ _ _ _ Hh Hg Hp) as Hsize. unfold size in Hsize.
  split; [exact Hsize|].
  split; [unfold call_method; by step Hsize|].
  split.
  - rewrite recursion_limit_S.
    apply (getattr_plain_method _ _ _ gimpl); [exact Hp|set_solver].
  - by rewrite (call_method_plain_eval _ _ _ "size" Hp) by set_solver.
Qed.

Lemma example_handle_state_eq :
  example_handle_state =
  set_heap [TensorObj Tensor_cls example_impl ∅;
            TensorObj XLAShardedTensor_cls (wrapper_impl example_impl false)
              (handle_attrs (VRef 0%nat) example_mesh example_spec)]
    example_state.
Proof.
  unfold example_handle_state.
  by rewrite (new_plain_cell _ _ _ _ _ _ _ _ false example_plain).
Qed.

Lemma example_handle_plain : plain_tensor example_handle_state 0%nat example_impl.
Proof.
  rewrite example_handle_state_eq.
  exists ∅. split; [reflexivity|]. intros name _. apply lookup_empty.
Qed.

Lemma X16_size_shadows_method_witness :
  getattr recursion_limit (VRef 1%nat) "size" example_handle_state
    = (Ok (VSize [8; 10]), example_handle_state) /\
  call_method (VRef 1%nat) "size" example_handle_state
    = (Raise (TypeError "not callable"), example_handle_state) /\
  getattr recursion_limit (VRef 0%nat) "size" example_handle_state
    = (Ok (VMethod 0%nat "size"), example_handle_state) /\
  call_method (VRef 0%nat) "size" example_handle_state
    = (Ok (VSize [8; 10]), example_handle_state).
Proof.
  apply (X16_size_shadows_method example_handle_state 1%nat
           (wrapper_impl example_impl false)
           (handle_attrs (VRef 0%nat) example_mesh example_spec)
           0%nat example_impl).
  - rewrite example_handle_state_eq. reflexivity.
  - reflexivity.
  - exact example_handle_plain.
Defined.

(** C10: construction sets exactly three instance attributes on the new
    handle: [global_tensor], [mesh_shape] and [partition_spec].  The mesh
    shape and the partition spec are stored as they were given, whatever
    they are; [local_shards] is not set on the instance and reads as the
    class default [None]; no object that existed before is changed. *)
Theorem C10_new_sets_three_fields s l impl mesh_shape partition_spec args kwargs b :
  plain_tensor s l impl ->
  dict_get kwargs "requires_grad" (VBool false) = VBool b ->
  exists r s' himpl attrs,
    new XLAShardedTensor_cls (VRef l) mesh_shape partition_spec args kwargs s
      = (Ok (VRef r), s') /\
    lookup_obj r s = None /\
    lookup_obj r s' = Some (TensorObj XLAShardedTensor_cls himpl attrs) /\
    dom attrs = ({["global_tensor"; "mesh_shape"; "partition_spec"]}
                   : gset string)%string /\
    getattr recursion_limit (VRef r) "mesh_shape" s' = (Ok mesh_shape, s') /\
    getattr recursion_limit (VRef r) "partition_spec" s'
      = (Ok partition_spec, s') /\
    attrs !! "local_shards"%string = None /\
    getattr recursion_limit (VRef r) "local_shards" s' = (Ok VNone, s') /\
    forall l', (l' < length (heap s))%nat -> lookup_obj l' s' = lookup_obj l' s.
Proof.
  intros Hp Hrg. eexists _, _, _, _. split; [by apply new_plain_cell|].
  split; [apply lookup_ge_None_2; lia|].
  split; [apply lookup_obj_middle|].
  split.
  { unfold handle_attrs. rewrite !dom_insert_L, dom_empty_L. set_solver. }
  rewrite recursion_limit_S.
  split.
  { erewrite getattr_attr; [|apply lookup_obj_middle|done|done].
    unfold handle_attrs. rewrite lookup_insert_ne by done.
    by rewrite lookup_insert_eq. }
  split.
  { erewrite getattr_attr; [|apply lookup_obj_middle|done|done].
    unfold handle_attrs. by rewrite lookup_insert_eq. }
  assert (handle_attrs (if b then VRef (S (length (heap s))) else VRef l)
            mesh_shape partition_spec !! "local_shards"%string = None) as Hno.
  { unfold handle_attrs. rewrite !lookup_insert_ne by done. apply lookup_empty. }
  split; [exact Hno|].
  split.
  { erewrite getattr_attr; [|apply lookup_obj_middle|done|done].
    by rewrite Hno. }
  intros l' Hl'. by rewrite lookup_obj_prefix.
Qed.

Lemma C10_new_sets_three_fields_witness :
  exists r s' himpl attrs,
    new XLAShardedTensor_cls (VRef 0%nat) example_mesh example_spec [] []
      example_state = (Ok (VRef r), s') /\
    lookup_obj r example_state = None /\
    lookup_obj r s' = Some (TensorObj XLAShardedTensor_cls himpl attrs) /\
    dom attrs = ({["global_tensor"; "mesh_shape"; "partition_spec"]}
                   : gset string)%string /\
    getattr recursion_limit (VRef r) "mesh_shape" s' = (Ok example_mesh, s') /\
    getattr recursion_limit (VRef r) "partition_spec" s'
      = (Ok example_spec, s') /\
    attrs !! "local_shards"%string = None /\
    getattr recursion_limit (VRef r) "local_shards" s' = (Ok VNone, s') /\
    forall l', (l' < length (heap example_state))%nat ->
               lookup_obj l' s' = lookup_obj l' example_state.
Proof.
  apply (C10_new_sets_three_fields example_state 0%nat example_impl example_mesh
           example_spec [] [] false).
  - exact example_plain.
  - reflexivity.
Defined.

(** ** Invariants of computations *)

Section Respects.
Context (R : state -> state -> Prop) (E : exn -> Prop).
Hypothesis R_refl : forall s, R s s.
Hypothesis R_trans : forall s1 s2 s3, R s1 s2 -> R s2 s3 -> R s1 s3.

Lemma respects_ret {A} (a : A) : respects R E (ret a).
Proof. intros s. split; [apply R_refl|]. intros e He. discriminate. Qed.

Lemma respects_raise {A} (e : exn) : E e -> respects R E (raise (A := A) e).
Proof.
  intros He s. split; [apply R_refl|]. intros e' He'. cbn in He'. congruence.
Qed.

Lemma respects_bind {A B} (m : M A) (k : A -> M B) :
  respects R E m -> (forall a, respects R E (k a)) -> respects R E (bind m k).
Proof.
  intros Hm Hk s. unfold bind. destruct (Hm s) as [HR HE].
  destruct (m s) as [[a|e] s1]; cbn in *.
  - destruct (Hk a s1) as [HR' HE']. split; [eauto|exact HE'].
  - split; [exact HR|]. intros e' He'. apply HE. congruence.
Qed.

Lemma respects_traverse {A B} (f : A -> M B) (l : list A) :
  Forall (fun x => respects R E (f x)) l -> respects R E (traverse f l).
Proof.
  induction 1 as [|x xs Hx _ IH]; cbn [traverse].
  - apply respects_ret.
  - apply respects_bind; [exact Hx|]. intros y.
    apply respects_bind; [exact IH|]. intros ys. apply respects_ret.
Qed.

Lemma respects_tree_map (fn : value -> M value) :
  (forall leaf, respects R E (fn leaf)) ->
  forall v, respects R E (tree_map fn v).
Proof.
  intros Hfn. induction v as [v Hv|vs IH|vs IH|kvs IH] using value_tree_ind.
  - destruct v; try discriminate Hv; apply Hfn.
  - cbn [tree_map]. apply respects_bind; [by apply respects_traverse|].
    intros vs'. apply respects_ret.
  - cbn [tree_map]. apply respects_bind; [by apply respects_traverse|].
    intros vs'. apply respects_ret.
  - cbn [tree_map]. apply respects_bind.
    + apply respects_traverse. eapply Forall_impl; [exact IH|].
      intros [k x] Hx. cbn in Hx. apply respects_bind; [exact Hx|].
      intros x'. apply respects_ret.
    + intros kvs'. apply respects_ret.
Qed.
End Respects.

Lemma respects_weaken {A} (R R' : state -> state -> Prop) (E E' : exn -> Prop)
    (m : M A) :
  (forall s s', R s s' -> R' s s') -> (forall e, E e -> E' e) ->
  respects R E m -> respects R' E' m.
Proof. intros HR HE Hm s. destruct (Hm s). split; eauto. Qed.

Lemma holds_ret {A} I E (a : A) : holds I E (ret a).
Proof. intros s Hs. split; [exact Hs|discriminate]. Qed.

Lemma holds_raise {A} (I : state -> Prop) (E : exn -> Prop) e :
  E e -> holds I E (raise (A := A) e).
Proof. intros He s Hs. split; [exact Hs|]. intros e' [= <-]. exact He. Qed.

Lemma holds_bind {A B} I E (m : M A) (k : A -> M B) :
  holds I E m -> (forall a, holds I E (k a)) -> holds I E (bind m k).
Proof.
  intros Hm Hk s Hs. unfold bind. destruct (Hm s Hs) as [HI HE].
  destruct (m s) as [[a|e] s1]; cbn in *.
  - by apply Hk.
  - split; [exact HI|]. intros e' He'. apply HE. congruence.
Qed.

Lemma holds_traverse {A B} I E (f : A -> M B) (l : list A) :
  Forall (fun x => holds I E (f x)) l -> holds I E (traverse f l).
Proof.
  induction 1 as [|x xs Hx _ IH]; cbn [traverse].
  - apply holds_ret.
  - apply holds_bind; [exact Hx|]. intros y.
    apply holds_bind; [exact IH|]. intros ys. apply holds_ret.
Qed.

Lemma shards_kept_refl s : shards_kept s s.
Proof. by intros l f H. Qed.

Lemma shards_kept_trans s1 s2 s3 :
  shards_kept s1 s2 -> shards_kept s2 s3 -> shards_kept s1 s3.
Proof. intros H1 H2 l f H. eauto. Qed.

Lemma frame_refl s : frame s s.
Proof. split; [done|]. split; [done|]. split; [apply shards_kept_refl|]. by intros v. Qed.

Lemma frame_trans s1 s2 s3 : frame s1 s2 -> frame s2 s3 -> frame s1 s3.
Proof.
  intros (Hd1 & Hi1 & Hs1 & Ht1) (Hd2 & Hi2 & Hs2 & Ht2).
  split; [congruence|]. split; [congruence|].
  split; [by eapply shards_kept_trans|]. intros v Hv. eauto.
Qed.

Lemma frame_alloc o s : frame s (set_heap (heap s ++ [o]) s).
Proof.
  split; [done|]. split; [done|]. split.
  - intros l f Hl.
    rewrite lookup_obj_prefix; [done|]. by apply lookup_lt_Some in Hl.
  - intros [] Hv; try discriminate Hv. unfold is_tensor in *.
    destruct (lookup_obj l s) as [o'|] eqn:Hl; [|discriminate].
    rewrite lookup_obj_prefix; [|by apply lookup_lt_Some in Hl].
    unfold lookup_obj in Hl. by rewrite Hl.
Qed.

(** Assigning an attribute of a tensor object changes that object only,
    and it is still a tensor object. *)
Lemma frame_setattr r name x s :
  is_tensor s r = true -> frame s (setattr r name x s).2.
Proof.
  intros Hr. unfold is_tensor in Hr. destruct r; try discriminate Hr.
  unfold setattr.
  destruct (lookup_obj l s) as [[cls impl attrs|]|] eqn:Hl; try discriminate Hr.
  cbn [snd]. split; [done|]. split; [done|]. split.
  - intros l' f Hl'. unfold lookup_obj in *. cbn [heap set_heap].
    rewrite list_lookup_insert_ne; [done|]. intros ->. congruence.
  - intros [] Hv; try discriminate Hv. unfold is_tensor, lookup_obj in *.
    cbn [heap set_heap].
    destruct (decide (l = l0)) as [->|Hne].
    + rewrite list_lookup_insert_eq; [done|]. by apply lookup_lt_Some in Hl.
    + by rewrite list_lookup_insert_ne.
Qed.

Lemma frame_bind {A B} E (m : M A) (k : A -> M B) :
  respects frame E m -> (forall a, respects frame E (k a)) ->
  respects frame E (bind m k).
Proof. apply respects_bind, frame_trans. Qed.

Lemma frame_raise {A} (E : exn -> Prop) e :
  E e -> respects frame E (raise (A := A) e).
Proof. apply respects_raise, frame_refl. Qed.

Lemma respects_alloc E o : respects frame E (alloc o).
Proof. intros s. split; [apply frame_alloc|]. intros e He. discriminate. Qed.

Lemma respects_py_call E f : (forall e, E e) -> respects frame E (py_call f).
Proof.
  intros HE s. split; [|intros; apply HE].
  unfold py_call. destruct f; try apply frame_refl.
  destruct (lookup_obj self s) as [[cls impl attrs|]|]; try apply frame_refl.
  repeat (case_bool_decide; [apply frame_refl|]).
  case_bool_decide; [|apply frame_refl]. apply frame_alloc.
Qed.

Transparent getattr.

Lemma respects_getattr E d v name :
  (forall e, E e) -> respects frame E (getattr d v name).
Proof.
  intros HE. revert v name. induction d as [|d IH]; intros v name.
  - apply frame_raise, HE.
  - destruct v; try (apply frame_raise, HE).
    intros s. cbn [getattr].
    destruct (lookup_obj l s) as [[cls impl attrs|fields]|] eqn:Hl.
    + destruct (size_property cls name).
      * apply frame_bind; [apply IH|]. intros g.
        apply frame_bind; [apply IH|]. intros m. by apply respects_py_call.
      * split; [|intros; apply HE].
        destruct (tensor_field impl name); [apply frame_refl|].
        destruct (attrs !! name); [apply frame_refl|].
        destruct (class_attr cls name); [apply frame_refl|].
        destruct (is_method name); apply frame_refl.
    + split; [|intros; apply HE].
      destruct (fields !! name); apply frame_refl.
    + split; [apply frame_refl|intros; apply HE].
Qed.

Opaque getattr.

(** ** The dispatch helpers *)

Lemma dispatch_eq cls func types args kwargs s :
  __torch__dispatch__ cls func types args kwargs s =
    ((dispatch_body func args kwargs (set_dispatch_disabled true s)).1,
     del_guard (negb (dispatch_disabled s))
       (dispatch_body func args kwargs (set_dispatch_disabled true s)).2).
Proof.
  unfold __torch__dispatch__, bind at 1, no_dispatch, _DisableTorchDispatch.
  fold (dispatch_body func args kwargs).
  by destruct (dispatch_body func args kwargs (set_dispatch_disabled true s))
    as [[r|e] s2].
Qed.

(** [unwrap] reads; it never writes. *)
Lemma unwrap_eq elem s :
  unwrap elem s =
    (match unwrapped_leaf (heap s) elem with
     | Some x => Ok x
     | None => Raise (AttributeError "global_tensor")
     end, s).
Proof.
  unfold unwrap, is_sharded, unwrapped_leaf. destruct elem; try reflexivity.
  fold (lookup_obj l s).
  destruct (lookup_obj l s) as [[[] impl attrs|]|] eqn:Hl; try reflexivity.
  rewrite recursion_limit_S.
  rewrite (getattr_attr _ _ _ _ _ _ "global_tensor" Hl) by done.
  by destruct (attrs !! "global_tensor"%string).
Qed.

Lemma traverse_pure {A B} (f : A -> M B) (g : A -> option B) e s l :
  Forall (fun x => f x s = (match g x with Some y => Ok y | None => Raise e end, s)) l ->
  traverse f l s = (match mapM g l with Some ys => Ok ys | None => Raise e end, s).
Proof.
  induction 1 as [|x xs Hx _ IH]; [done|].
  cbn [traverse mapM]. unfold bind at 1. rewrite Hx.
  destruct (g x) as [y|]; [|done]. cbn.
  unfold bind at 1. rewrite IH. by destruct (mapM g xs).
Qed.

(** Refinement: mapping [unwrap] over an operand tree computes the fully
    unwrapped operands and leaves the state alone. *)
Lemma tree_map_unwrap s v :
  tree_map unwrap v s =
    (match unwrapped (heap s) v with
     | Some u => Ok u
     | None => Raise (AttributeError "global_tensor")
     end, s).
Proof.
  induction v as [v Hv|vs IH|vs IH|kvs IH] using value_tree_ind.
  - destruct v; try discriminate Hv; apply unwrap_eq.
  - cbn [tree_map unwrapped]. unfold bind.
    rewrite (traverse_pure _ (unwrapped (heap s)) (AttributeError "global_tensor")) by done.
    by destruct (mapM (unwrapped (heap s)) vs).
  - cbn [tree_map unwrapped]. unfold bind.
    rewrite (traverse_pure _ (unwrapped (heap s)) (AttributeError "global_tensor")) by done.
    by destruct (mapM (unwrapped (heap s)) vs).
  - cbn [tree_map unwrapped]. unfold bind at 1.
    rewrite (traverse_pure _
               (fun kv : string * value => let '(k, x) := kv in pair k <$> unwrapped (heap s) x)
               (AttributeError "global_tensor")).
    + by destruct (mapM _ kvs).
    + eapply Forall_impl; [exact IH|]. intros [k x] Hx. cbn in Hx.
      unfold bind. rewrite Hx. by destruct (unwrapped (heap s) x).
Qed.

Lemma wrap_eq elem s :
  wrap elem s =
    match elem with
    | VRef l =>
        match lookup_obj l s with
        | Some (TensorObj _ impl _) =>
            (Ok (VRef (length (heap s))),
             set_heap (heap s ++ [TensorObj XLAShardedTensor_cls impl ∅]) s)
        | _ => (Ok elem, s)
        end
    | _ => (Ok elem, s)
    end.
Proof.
  unfold wrap, is_tensor, Tensor_call. destruct elem; try reflexivity.
  by destruct (lookup_obj l s) as [[cls impl attrs|]|].
Qed.

Lemma respects_wrap elem : respects frame (fun _ => False) (wrap elem).
Proof.
  intros s. rewrite wrap_eq. destruct elem;
    try (split; [apply frame_refl|intros; discriminate]).
  destruct (lookup_obj l s) as [[cls impl attrs|]|];
    try (split; [apply frame_refl|intros; discriminate]).
  split; [apply frame_alloc|intros; discriminate].
Qed.

(** ** Claims about the dispatch helpers *)

(** Wrapping any tensor and unwrapping the result raises: the handle
    that [wrap] makes has no [global_tensor]. *)
Lemma wrap_then_unwrap_raises s l :
  is_tensor s (VRef l) = true ->
  (w <- wrap (VRef l) ;; unwrap w) s
    = (Raise (AttributeError "global_tensor"), (wrap (VRef l) s).2).
Proof.
  intros Ht. unfold is_tensor in Ht. unfold bind. rewrite wrap_eq.
  destruct (lookup_obj l s) as [[cls impl attrs|]|]; try discriminate.
  rewrite unwrap_eq. cbn [heap set_heap unwrapped_leaf].
  by rewrite list_lookup_middle.
Qed.

(** C5 fails on the code, on both halves.  For the plain tensor [x] of
    the example, [unwrap(wrap(x))] raises [AttributeError] instead of
    returning [x]; for its handle [h], whose [global_tensor] is [x],
    reading [global_tensor] of [wrap(unwrap(h))] raises as well. *)
Theorem C5_round_trip_raises :
  ((w <- wrap (VRef 0%nat) ;; unwrap w) example_handle_state).1
    = Raise (AttributeError "global_tensor") /\
  (getattr recursion_limit (VRef 1%nat) "global_tensor" example_handle_state).1
    = Ok (VRef 0%nat) /\
  ((u <- unwrap (VRef 1%nat) ;; w <- wrap u ;;
    getattr recursion_limit w "global_tensor") example_handle_state).1
    = Raise (AttributeError "global_tensor").
Proof. vm_compute. auto. Qed.

(** ** Claims about the guard *)

Lemma dispatch_body_raise func args kw ua uk e s s2 :
  unwrapped (heap s) (VTuple args) = Some (VTuple ua) ->
  unwrapped (heap s) (VDict kw) = Some (VDict uk) ->
  func ua uk s = (Raise e, s2) ->
  dispatch_body func args (Some kw) s = (Raise e, s2).
Proof.
  intros Ha Hk Hf. unfold dispatch_body.
  unfold bind at 1. rewrite tree_map_unwrap, Ha.
  unfold bind at 1. cbn [from_option]. rewrite tree_map_unwrap, Hk.
  cbn [star_star star]. unfold bind at 1, ret at 1. unfold bind at 1, ret at 1.
  unfold bind. by rewrite Hf.
Qed.

(** C6: when interception is active on entry to the handler, it is active
    again on exit, on every path: whatever [func] does, returns or raises,
    and also when unwrapping or the argument unpacking raises.  And if
    [func] raises [e] on the unwrapped operands, the handler raises the
    same [e], with the guard released on the state [func] left. *)
Theorem C6_guard_released cls func types args kwargs s :
  dispatch_disabled s = false ->
  dispatch_disabled (__torch__dispatch__ cls func types args kwargs s).2 = false /\
  forall kw ua uk e s2,
    kwargs = Some kw ->
    unwrapped (heap s) (VTuple args) = Some (VTuple ua) ->
    unwrapped (heap s) (VDict kw) = Some (VDict uk) ->
    func ua uk (set_dispatch_disabled true s) = (Raise e, s2) ->
    __torch__dispatch__ cls func types args kwargs s
      = (Raise e, set_dispatch_disabled false s2).
Proof.
  intros Hs. rewrite dispatch_eq, Hs. split; [reflexivity|].
  intros kw ua uk e s2 -> Ha Hk Hf.
  by rewrite (dispatch_body_raise func args kw ua uk e
                (set_dispatch_disabled true s) s2 Ha Hk Hf).
Qed.

Lemma C6_guard_released_witness :
  dispatch_disabled
    (__torch__dispatch__ XLAShardedTensor_cls failing_op []
       [VRef 1%nat; VRef 0%nat] (Some [("x"%string, VRef 1%nat)])
       example_handle_state).2 = false /\
  __torch__dispatch__ XLAShardedTensor_cls failing_op []
    [VRef 1%nat; VRef 0%nat] (Some [("x"%string, VRef 1%nat)])
    example_handle_state
  = (Raise (RuntimeError "boom"), example_handle_state).
Proof.
  destruct (C6_guard_released XLAShardedTensor_cls failing_op []
              [VRef 1%nat; VRef 0%nat] (Some [("x"%string, VRef 1%nat)])
              example_handle_state eq_refl) as [Hflag Hraise].
  split; [exact Hflag|].
  apply (Hraise [("x"%string, VRef 1%nat)] [VRef 0%nat; VRef 0%nat]
           [("x"%string, VRef 0%nat)] (RuntimeError "boom")
           (set_dispatch_disabled true example_handle_state)).
  - reflexivity.
  - vm_compute. reflexivity.
  - vm_compute. reflexivity.
  - reflexivity.
Defined.

(** ** Claims about shard records *)

Lemma frame_ret {A} E (a : A) : respects frame E (ret a).
Proof. apply respects_ret, frame_refl. Qed.

Lemma respects_call_method v name :
  respects frame any_exn (call_method v name).
Proof.
  apply frame_bind; [by apply respects_getattr|].
  intros m. by apply respects_py_call.
Qed.

(** A bind whose continuation may rely on a property [J] of the value
    bound. *)
Lemma holds_bind_val {A B} I E (J : A -> state -> Prop) (m : M A)
    (k : A -> M B) :
  (forall s, I s ->
     match m s with
     | (Ok a, s') => J a s'
     | (Raise e, s') => I s' /\ E e
     end) ->
  (forall a s, J a s -> I (k a s).2 /\ forall e, (k a s).1 = Raise e -> E e) ->
  holds I E (bind m k).
Proof.
  intros Hm Hk s Hs. unfold bind. specialize (Hm s Hs).
  destruct (m s) as [[a|e] s1]; [by apply Hk|].
  destruct Hm as [HI He]. split; [exact HI|]. by intros e' [= <-].
Qed.

Lemma respects_holds_frame {A} s0 r E (m : M A) :
  respects frame E m ->
  holds (fun s => frame s0 s /\ is_tensor s r = true) any_exn m.
Proof.
  intros Hm s [Hf Hr]. destruct (Hm s) as [Hf' _]. split; [|done].
  split; [by eapply frame_trans|]. destruct Hf' as (_ & _ & _ & Ht). by apply Ht.
Qed.

Lemma holds_setattr s0 r name x :
  holds (fun s => frame s0 s /\ is_tensor s r = true) any_exn
    (setattr r name x).
Proof.
  intros s [Hf Hr]. pose proof (frame_setattr r name x s Hr) as Hf'.
  split; [|done]. split; [by eapply frame_trans|].
  destruct Hf' as (_ & _ & _ & Ht). by apply Ht.
Qed.

Lemma make_wrapper_subclass_cases cls sz st off dt lay dev rg s :
  (exists e, _make_wrapper_subclass cls sz st off dt lay dev rg s = (Raise e, s)) \/
  (exists impl,
     _make_wrapper_subclass cls sz st off dt lay dev rg s
       = (Ok (VRef (length (heap s))),
          set_heap (heap s ++ [TensorObj cls impl ∅]) s)).
Proof.
  unfold _make_wrapper_subclass.
  destruct (match sz with
            | VSize d => Some d
            | VTuple vs | VList vs => as_ints vs
            | _ => None
            end) as [d|]; [|left; eexists; reflexivity].
  destruct (match st with
            | VTuple vs | VList vs => as_ints vs
            | _ => None
            end) as [st'|]; [|left; eexists; reflexivity].
  destruct off; try (left; eexists; reflexivity).
  destruct dt; try (left; eexists; reflexivity).
  destruct lay; try (left; eexists; reflexivity).
  destruct dev; try (left; eexists; reflexivity).
  destruct rg; try (left; eexists; reflexivity).
  right. eexists. reflexivity.
Qed.

Lemma make_wrapper_subclass_tensor cls sz st off dt lay dev rg s :
  frame s (_make_wrapper_subclass cls sz st off dt lay dev rg s).2 /\
  forall r, (_make_wrapper_subclass cls sz st off dt lay dev rg s).1 = Ok r ->
            is_tensor (_make_wrapper_subclass cls sz st off dt lay dev rg s).2 r
              = true.
Proof.
  destruct (make_wrapper_subclass_cases cls sz st off dt lay dev rg s)
    as [[e ->]|[impl ->]]; cbn [fst snd].
  - split; [apply frame_refl|intros; discriminate].
  - split; [apply frame_alloc|]. intros r [= <-].
    unfold is_tensor. by rewrite lookup_obj_middle.
Qed.

Lemma respects_new cls elem mesh_shape partition_spec args kwargs :
  respects frame any_exn (new cls elem mesh_shape partition_spec args kwargs).
Proof.
  intros s0.
  enough (holds (frame s0) any_exn
            (new cls elem mesh_shape partition_spec args kwargs)) as H
    by (apply H, frame_refl).
  assert (forall A (m : M A), respects frame any_exn m ->
            holds (frame s0) any_exn m) as Hfr.
  { intros A m Hm s Hs. destruct (Hm s) as [Hf _].
    split; [by eapply frame_trans|done]. }
  unfold new.
  do 3 (apply holds_bind; [apply Hfr, respects_call_method|intros ?]).
  do 3 (apply holds_bind; [by apply Hfr, respects_getattr|intros ?]).
  apply (holds_bind_val _ _
           (fun r s => frame s0 s /\ is_tensor s r = true)).
  - intros s Hs.
    pose proof (make_wrapper_subclass_tensor cls a a0 a1 a2 a3 a4
                  (dict_get kwargs "requires_grad" (VBool false)) s) as Hw.
    destruct (_make_wrapper_subclass _ _ _ _ _ _ _ _ s) as [[r|e] s1];
      destruct Hw as [Hf Hr]; cbn [fst snd] in *.
    + split; [by eapply frame_trans|by apply Hr].
    + split; [by eapply frame_trans|done].
  - intros r s Hs.
    assert (holds (fun s => frame s0 s /\ is_tensor s r = true) any_exn
              (rg <- getattr recursion_limit r "requires_grad" ;;
               g <- (if truthy rg then call_method elem "detach" else ret elem) ;;
               setattr r "global_tensor" g ;;;
               setattr r "mesh_shape" mesh_shape ;;;
               setattr r "partition_spec" partition_spec ;;; ret r)) as Ht.
    { apply holds_bind;
        [by eapply respects_holds_frame, (respects_getattr any_exn)|].
      intros rg. apply holds_bind.
      { destruct (truthy rg);
          [eapply respects_holds_frame, respects_call_method
          |eapply respects_holds_frame, (frame_ret any_exn)]. }
      intros g. do 3 (apply holds_bind; [apply holds_setattr|intros ?]).
      apply holds_ret. }
    destruct (Ht s Hs) as [[Hf _] He]. by split.
Qed.

Lemma frame_shards_kept s s' : frame s s' -> shards_kept s s'.
Proof. by intros (_ & _ & H & _). Qed.

Lemma respects_frame_shards {A} E (m : M A) :
  respects frame E m -> respects shards_kept any_exn m.
Proof. apply respects_weaken; [apply frame_shards_kept|done]. Qed.

Lemma shards_bind {A B} (m : M A) (k : A -> M B) :
  respects shards_kept any_exn m ->
  (forall a, respects shards_kept any_exn (k a)) ->
  respects shards_kept any_exn (bind m k).
Proof. apply respects_bind, shards_kept_trans. Qed.

Lemma respects_tree_map_unwrap v :
  respects frame (fun e => e = AttributeError "global_tensor")
    (tree_map unwrap v).
Proof.
  intros s. rewrite tree_map_unwrap. split; [apply frame_refl|].
  intros e He. cbn in He. destruct (unwrapped (heap s) v); congruence.
Qed.

Lemma respects_tree_map_wrap v :
  respects frame (fun _ => False) (tree_map wrap v).
Proof.
  apply respects_tree_map; [apply frame_refl|apply frame_trans|].
  apply respects_wrap.
Qed.

Lemma respects_star_star E v : (forall e, E e) -> respects frame E (star_star v).
Proof.
  intros HE. destruct v; try (by apply frame_raise). apply frame_ret.
Qed.

Lemma respects_star E v : (forall e, E e) -> respects frame E (star v).
Proof.
  intros HE. destruct v; try (by apply frame_raise); apply frame_ret.
Qed.

Lemma respects_dispatch_body func args kwargs :
  (forall a k, respects shards_kept any_exn (func a k)) ->
  respects shards_kept any_exn (dispatch_body func args kwargs).
Proof.
  intros Hf. unfold dispatch_body.
  apply shards_bind; [eapply respects_frame_shards, respects_tree_map_unwrap|].
  intros a.
  apply shards_bind; [eapply respects_frame_shards, respects_tree_map_unwrap|].
  intros k.
  apply shards_bind; [by eapply respects_frame_shards, (respects_star_star any_exn)|].
  intros k'.
  apply shards_bind; [by eapply respects_frame_shards, (respects_star any_exn)|].
  intros a'.
  apply shards_bind; [apply Hf|]. intros r.
  eapply respects_frame_shards, respects_tree_map_wrap.
Qed.

(** C8: no entry point of the component changes a shard record.  A
    record that is in the store before a call is there after it with the
    same fields, [data] and [rank] among them, provided that the code the
    call receives from outside (the dispatched operation, the printer)
    does not change it either.  The dataclass is not frozen, so an
    assignment to a field of a record is possible in the language; the
    component performs none. *)
Theorem C8_shards_unchanged c s l fields :
  callbacks_keep_shards c ->
  lookup_obj l s = Some (XLAShard fields) ->
  lookup_obj l (run_component c s).2 = Some (XLAShard fields).
Proof.
  intros Hc Hl.
  assert (respects shards_kept any_exn (run_component c)) as Hr.
  { destruct c as [d r|cls elem m p a k|self|format self|cls func types args kwargs];
      cbn [run_component callbacks_keep_shards] in *.
    - eapply respects_frame_shards. unfold XLAShard_new.
      apply frame_bind; [apply (respects_alloc any_exn)|].
      intros x. apply frame_ret.
    - eapply respects_frame_shards, respects_new.
    - eapply respects_frame_shards. by apply (respects_getattr any_exn).
    - unfold __repr__.
      apply shards_bind;
        [eapply respects_frame_shards; by apply (respects_getattr any_exn)|].
      intros g. apply shards_bind; [apply Hc|]. intros t.
      apply respects_ret, shards_kept_refl.
    - intros s0. split; [|done]. rewrite dispatch_eq. cbn [snd].
      destruct (respects_dispatch_body func args kwargs Hc
                  (set_dispatch_disabled true s0)) as [Hk _].
      intros l0 f0 Hl0. specialize (Hk l0 f0 Hl0).
      by destruct (negb (dispatch_disabled s0)). }
  destruct (Hr s) as [Hk _]. by apply Hk.
Qed.

Lemma C8_shards_unchanged_witness :
  lookup_obj 1%nat
    (run_component
       (call_new XLAShardedTensor_cls (VRef 0%nat) example_mesh example_spec [] [])
       example_shard_state).2
  = Some example_shard.
Proof.
  apply (C8_shards_unchanged
           (call_new XLAShardedTensor_cls (VRef 0%nat) example_mesh
              example_spec [] [])
           example_shard_state 1%nat).
  - exact I.
  - reflexivity.
Defined.

(** The property is not vacuous: an assignment from outside the
    component does change a record. *)
Lemma shard_is_assignable :
  lookup_obj 1%nat
    (setattr (VRef 1%nat) "rank" (VInt 7) example_shard_state).2
  = Some (XLAShard (<["rank"%string := VInt 7]>
                      (<["data"%string := VRef 0%nat]> ∅))).
Proof. vm_compute. reflexivity. Qed.

(** ** Claims about recursion *)

Lemma respects_holds {A} n (E E' : exn -> Prop) (m : M A) :
  (forall e, E e -> E' e) ->
  respects frame E m -> holds (suspended_at n) E' m.
Proof.
  intros HE Hm s [Hd Hn]. destruct (Hm s) as [(Hd' & Hn' & _) He].
  split; [split; congruence|]. intros e H. by apply HE, He.
Qed.

Lemma holds_dispatch_body n func args kwargs :
  (forall a k, holds (suspended_at n) not_recursion (func a k)) ->
  holds (suspended_at n) not_recursion (dispatch_body func args kwargs).
Proof.
  intros Hf. unfold dispatch_body.
  apply holds_bind.
  { eapply respects_holds; [|apply respects_tree_map_unwrap].
    by intros e ->. }
  intros a. apply holds_bind.
  { eapply respects_holds; [|apply respects_tree_map_unwrap].
    by intros e ->. }
  intros k. apply holds_bind.
  { destruct k; try (apply holds_raise; discriminate). apply holds_ret. }
  intros k'. apply holds_bind.
  { destruct a; try (apply holds_raise; discriminate); apply holds_ret. }
  intros a'. apply holds_bind; [apply Hf|]. intros r.
  eapply respects_holds; [|apply respects_tree_map_wrap]. done.
Qed.

Lemma engine_call_S d mode o args kwargs s :
  engine_call (S d) mode o args kwargs s =
    if negb (dispatch_disabled s) && (mode || has_sharded s args kwargs)
    then __torch__dispatch__ XLAShardedTensor_cls (engine_call d mode o) []
           args (Some kwargs) (count_interception s)
    else
      match o with
      | Kernel k => run_kernel k args kwargs s
      | Composite subs =>
          (rs <- traverse (fun o' => engine_call d mode o' args kwargs) subs ;;
           ret (VTuple rs)) s
      end.
Proof. reflexivity. Qed.

Lemma op_depth_sub o subs :
  o ∈ subs -> (op_depth o <= list_max (map op_depth subs))%nat.
Proof.
  intros Hin.
  pose proof (proj1 (list_max_le (map op_depth subs) _) (le_n _)) as Hall.
  rewrite List.Forall_forall in Hall. apply Hall.
  apply in_map, list_elem_of_In, Hin.
Qed.

(** While interception is suspended, a call into the engine runs the
    implementation, nested operations included, without entering the
    handler and without reaching the recursion limit. *)
Lemma engine_call_suspended mode n d :
  forall o args kwargs,
    (op_depth o < d)%nat ->
    holds (suspended_at n) not_recursion (engine_call d mode o args kwargs).
Proof.
  induction d as [|d IH]; intros o args kwargs Hd; [lia|].
  intros s Hs. rewrite engine_call_S.
  destruct Hs as [Hflag Hn]. rewrite Hflag. cbn [negb andb].
  destruct o as [k|subs].
  - unfold run_kernel. destruct (k args kwargs (heap s)) as [[msg|v] h];
      (split; [by split|]); [intros e [= <-]; done|discriminate].
  - assert (holds (suspended_at n) not_recursion
              (rs <- traverse (fun o' => engine_call d mode o' args kwargs) subs ;;
               ret (VTuple rs))) as H.
    { apply holds_bind; [|intros rs; apply holds_ret].
      apply holds_traverse. apply Forall_forall. intros o' Hin.
      apply IH. pose proof (op_depth_sub _ _ Hin). cbn [op_depth] in Hd. lia. }
    by apply H.
Qed.

Lemma traverse_agree {A B} (I : state -> Prop) (f g : A -> M B) (l : list A) :
  Forall (fun x => forall s, I s -> f x s = g x s /\ I (g x s).2) l ->
  forall s, I s -> traverse f l s = traverse g l s /\ I (traverse g l s).2.
Proof.
  induction 1 as [|x xs Hx _ IH]; intros s Hs; [done|].
  cbn [traverse]. unfold bind.
  destruct (Hx s Hs) as [-> Hs1].
  destruct (g x s) as [[y|e] s1]; [|done]. cbn [snd] in Hs1.
  destruct (IH s1 Hs1) as [-> Hs2].
  by destruct (traverse g xs s1) as [[ys|e] s2].
Qed.

(** While interception is suspended, a call into the engine is the
    implementation run directly, and it leaves interception suspended. *)
Lemma engine_call_is_impl mode d :
  forall o args kwargs s,
    (op_depth o < d)%nat ->
    dispatch_disabled s = true ->
    engine_call d mode o args kwargs s = run_impl o args kwargs s /\
    dispatch_disabled (run_impl o args kwargs s).2 = true.
Proof.
  induction d as [|d IH]; intros o args kwargs s Hd Hs; [lia|].
  rewrite engine_call_S, Hs. cbn [negb andb].
  destruct o as [k|subs].
  - cbn [run_impl]. split; [done|]. unfold run_kernel.
    by destruct (k args kwargs (heap s)) as [[msg|v] h].
  - cbn [run_impl]. unfold bind.
    destruct (traverse_agree (fun s => dispatch_disabled s = true)
                (fun o' => engine_call d mode o' args kwargs)
                (fun o' => run_impl o' args kwargs) subs) with (s := s)
      as [-> Hflag]; [|exact Hs|].
    + apply Forall_forall. intros o' Hin s' Hs'.
      apply IH; [|exact Hs'].
      pose proof (op_depth_sub _ _ Hin). cbn [op_depth] in Hd. lia.
    + by destruct (traverse _ subs s) as [[rs|e] s'].
Qed.

(** With operands that unwrap, the body of the handler's block is one
    call of [func] on the unwrapped operands, followed by the wrapping of
    its result. *)
Lemma dispatch_body_unwrapped func args kw ua uk s :
  unwrapped (heap s) (VTuple args) = Some (VTuple ua) ->
  unwrapped (heap s) (VDict kw) = Some (VDict uk) ->
  dispatch_body func args (Some kw) s = (r <- func ua uk ;; tree_map wrap r) s.
Proof.
  intros Ha Hk. unfold dispatch_body.
  unfold bind at 1. rewrite tree_map_unwrap, Ha.
  unfold bind at 1. cbn [from_option]. rewrite tree_map_unwrap, Hk.
  cbn [star_star star]. unfold bind at 1, ret at 1. by unfold bind at 1, ret at 1.
Qed.

(** The handler only ever runs [func] under suspension: two operations
    that agree whenever interception is suspended are dispatched alike. *)
Lemma dispatch_runs_func_suspended cls func func' types args kwargs s :
  (forall a k s', dispatch_disabled s' = true -> func a k s' = func' a k s') ->
  __torch__dispatch__ cls func types args kwargs s
    = __torch__dispatch__ cls func' types args kwargs s.
Proof.
  intros Hagree. rewrite !dispatch_eq.
  assert (dispatch_body func args kwargs (set_dispatch_disabled true s)
          = dispatch_body func' args kwargs (set_dispatch_disabled true s)) as ->;
    [|done].
  unfold dispatch_body, bind. rewrite !tree_map_unwrap.
  destruct (unwrapped _ (VTuple args)) as [a|]; [|done].
  destruct (unwrapped _ (from_option VDict VNone kwargs)) as [k|]; [|done].
  destruct k; try reflexivity. destruct a; try reflexivity.
  all: unfold star_star, star, ret; by rewrite Hagree.
Qed.

(** C7: let a call be intercepted: interception is active, and the
    engine is in Python mode (where every call is intercepted) or an
    operand is sharded.  The engine counts the entry and calls the
    handler.  Then, whatever the operands, the handler has been entered
    exactly once when the call ends, interception is active again, and
    the recursion limit has not been reached; and the handler calls the
    [func] it is given only while interception is suspended: two
    operations that agree under suspension are dispatched alike.
    When the operands unwrap, to [ua] and [uk], more can be said.  The
    handler runs [func] once, on [ua] and [uk], from [entered s], the
    state in which its guard has suspended interception, and re-enables
    interception afterwards.  The operation that the engine re-dispatches,
    however nested the operations that its implementation triggers, runs
    from there as the implementation alone, never entering the handler,
    and ends with interception still suspended and still one entry.  So
    the whole call is that implementation followed by the wrapping of its
    result. *)
Theorem C7_dispatch_enters_once mode o args kw s d :
  dispatch_disabled s = false ->
  mode || has_sharded s args kw = true ->
  (op_depth o < d)%nat ->
  interceptions (engine_call (S d) mode o args kw s).2 = S (interceptions s) /\
  dispatch_disabled (engine_call (S d) mode o args kw s).2 = false /\
  (engine_call (S d) mode o args kw s).1 <> Raise RecursionError /\
  (forall func func',
     (forall a k s', dispatch_disabled s' = true -> func a k s' = func' a k s') ->
     __torch__dispatch__ XLAShardedTensor_cls func [] args (Some kw)
       (count_interception s)
     = __torch__dispatch__ XLAShardedTensor_cls func' [] args (Some kw)
         (count_interception s)) /\
  forall ua uk,
    unwrapped (heap s) (VTuple args) = Some (VTuple ua) ->
    unwrapped (heap s) (VDict kw) = Some (VDict uk) ->
    (forall func,
       __torch__dispatch__ XLAShardedTensor_cls func [] args (Some kw)
         (count_interception s)
       = (((r <- func ua uk ;; tree_map wrap r) (entered s)).1,
          set_dispatch_disabled false
            ((r <- func ua uk ;; tree_map wrap r) (entered s)).2)) /\
    dispatch_disabled (entered s) = true /\
    engine_call d mode o ua uk (entered s) = run_impl o ua uk (entered s) /\
    suspended_at (S (interceptions s)) (run_impl o ua uk (entered s)).2 /\
    engine_call (S d) mode o args kw s
      = (((r <- run_impl o ua uk ;; tree_map wrap r) (entered s)).1,
         set_dispatch_disabled false
           ((r <- run_impl o ua uk ;; tree_map wrap r) (entered s)).2).
Proof.
  intros Hflag Hcond Hd.
  assert (engine_call (S d) mode o args kw s
          = ((dispatch_body (engine_call d mode o) args (Some kw) (entered s)).1,
             set_dispatch_disabled false
               (dispatch_body (engine_call d mode o) args (Some kw)
                  (entered s)).2)) as Hcall.
  { rewrite engine_call_S, Hflag, Hcond. cbn [negb andb].
    rewrite dispatch_eq.
    change (dispatch_disabled (count_interception s)) with (dispatch_disabled s).
    by rewrite Hflag. }
  destruct (holds_dispatch_body (S (interceptions s)) (engine_call d mode o)
              args (Some kw)
              (fun a k => engine_call_suspended mode _ d o a k Hd)
              (entered s) ltac:(by split)) as [[_ Hn] He].
  split; [by rewrite Hcall|].
  split; [by rewrite Hcall|].
  split; [rewrite Hcall; intros H; by apply (He _ H)|].
  split; [intros func func' Hagree;
          by apply dispatch_runs_func_suspended|].
  intros ua uk Ha Hk.
  assert (forall func,
     __torch__dispatch__ XLAShardedTensor_cls func [] args (Some kw)
       (count_interception s)
     = (((r <- func ua uk ;; tree_map wrap r) (entered s)).1,
        set_dispatch_disabled false
          ((r <- func ua uk ;; tree_map wrap r) (entered s)).2)) as Hhandler.
  { intros func. rewrite dispatch_eq.
    change (dispatch_disabled (count_interception s)) with (dispatch_disabled s).
    rewrite Hflag. cbn [negb del_guard]. fold (entered s).
    by rewrite (dispatch_body_unwrapped func args kw ua uk (entered s) Ha Hk). }
  destruct (engine_call_is_impl mode d o ua uk (entered s) Hd eq_refl)
    as [Himpl _].
  pose proof (engine_call_suspended mode (S (interceptions s)) d o ua uk Hd
                (entered s) ltac:(by split)) as [Hsusp _].
  rewrite Himpl in Hsusp.
  split; [exact Hhandler|]. split; [reflexivity|]. split; [exact Himpl|].
  split; [exact Hsusp|].
  rewrite Hcall.
  rewrite (dispatch_body_unwrapped _ args kw ua uk (entered s) Ha Hk).
  unfold bind. by rewrite Himpl.
Qed.

Lemma C7_dispatch_enters_once_witness :
  interceptions
    (engine_call 4 true example_op [VRef 1%nat] [] example_handle_state).2
    = 1%nat /\
  dispatch_disabled
    (engine_call 4 true example_op [VRef 1%nat] [] example_handle_state).2
    = false /\
  (engine_call 4 true example_op [VRef 1%nat] [] example_handle_state).1
    <> Raise RecursionError /\
  (forall func,
     __torch__dispatch__ XLAShardedTensor_cls func [] [VRef 1%nat] (Some [])
       (count_interception example_handle_state)
     = (((r <- func [VRef 0%nat] [] ;; tree_map wrap r)
           (entered example_handle_state)).1,
        set_dispatch_disabled false
          ((r <- func [VRef 0%nat] [] ;; tree_map wrap r)
             (entered example_handle_state)).2)) /\
  engine_call 3 true example_op [VRef 0%nat] [] (entered example_handle_state)
    = run_impl example_op [VRef 0%nat] [] (entered example_handle_state) /\
  suspended_at 1
    (run_impl example_op [VRef 0%nat] [] (entered example_handle_state)).2 /\
  engine_call 4 true example_op [VRef 1%nat] [] example_handle_state
    = (((r <- run_impl example_op [VRef 0%nat] [] ;; tree_map wrap r)
          (entered example_handle_state)).1,
       set_dispatch_disabled false
         ((r <- run_impl example_op [VRef 0%nat] [] ;; tree_map wrap r)
            (entered example_handle_state)).2).
Proof.
  assert ((op_depth example_op < 3)%nat) as Hd by (vm_compute; lia).
  destruct (C7_dispatch_enters_once true example_op [VRef 1%nat] [] example_handle_state 3
              eq_refl eq_refl Hd) as (Hn & Hflag & Hrec & _ & Hunw).
  assert (unwrapped (heap example_handle_state) (VTuple [VRef 1%nat])
          = Some (VTuple [VRef 0%nat])) as Ha by (vm_compute; reflexivity).
  destruct (Hunw [VRef 0%nat] [] Ha eq_refl)
    as (Hhandler & _ & Himpl & Hsusp & Hcall).
  repeat split; assumption.
Defined.

(** Without the guard the recursion is unbounded: in Python mode the
    unguarded body enters the handler once per level of the call chain,
    down to the recursion limit, whatever that limit is. *)
Lemma unguarded_recursion_unbounded d o s :
  dispatch_disabled s = false ->
  engine_call_with unguarded_handler d true o [] [] s
    = (Raise RecursionError,
       {| heap := heap s; dispatch_disabled := false;
          interceptions := interceptions s + d |}).
Proof.
  revert s. induction d as [|d IH]; intros s Hflag.
  - cbn. destruct s; cbn in *. subst. by rewrite Nat.add_0_r.
  - cbn [engine_call_with]. rewrite Hflag. cbn [negb andb orb].
    unfold unguarded_handler, dispatch_body.
    rewrite (bind_ok _ _ _ (VTuple []) (count_interception s)) by reflexivity.
    rewrite (bind_ok _ _ _ (VDict []) (count_interception s)) by reflexivity.
    cbn [star_star star]. unfold bind at 1, ret at 1. unfold bind at 1, ret at 1.
    unfold bind. rewrite IH by exact Hflag.
    cbn. f_equal. f_equal. lia.
Qed.

(** ** The dispatched result *)

Lemma set_heap_id s : set_heap (heap s) s = s.
Proof. by destruct s. Qed.

Lemma rewrapped_mono h0 a a' x x' :
  rewrapped h0 a x x' -> a `prefix_of` a' -> rewrapped h0 a' x x'.
Proof.
  intros Hr [k ->]. unfold rewrapped in *. destruct x; try exact Hr.
  destruct (h0 !! l) as [[cls impl attrs|]|]; try exact Hr.
  destruct Hr as (l' & -> & Hnew & Hl'). exists l'.
  repeat split; [exact Hnew|]. by apply lookup_app_l_Some.
Qed.

Lemma tree_leaves_leaf v : tree_shape v = SLeaf -> tree_leaves v = [v].
Proof. by destruct v. Qed.

Lemma tree_map_leaf fn v : tree_shape v = SLeaf -> tree_map fn v = fn v.
Proof. by destruct v. Qed.

Lemma closed_children n (vs : list value) :
  Forall (fun x => match x with VRef l => (l < n)%nat | _ => True end)
    (concat (map tree_leaves vs)) ->
  Forall (closed n) vs.
Proof.
  intros H. apply Forall_concat in H. by rewrite List.Forall_map in H.
Qed.

(** Wrapping one leaf, in a store that extends [h0] by [ext]. *)
Lemma wrap_leaf h0 v :
  closed (length h0) v -> tree_shape v = SLeaf ->
  forall ext s, heap s = h0 ++ ext ->
    exists v' ext',
      wrap v s = (Ok v', set_heap (h0 ++ ext ++ ext') s) /\
      tree_shape v' = SLeaf /\
      rewrapped h0 (h0 ++ ext ++ ext') v v'.
Proof.
  intros Hc Hleaf ext s Hs. rewrite wrap_eq.
  assert (s = set_heap (h0 ++ ext ++ []) s) as Hsame.
  { rewrite app_nil_r, <- Hs. symmetry. apply set_heap_id. }
  destruct v; try discriminate Hleaf;
    try (eexists _, []; split; [by rewrite <- Hsame|done]).
  unfold closed in Hc. cbn in Hc. rewrite Forall_singleton in Hc.
  unfold lookup_obj. rewrite Hs, lookup_app_l by exact Hc.
  unfold rewrapped.
  destruct (h0 !! l) as [[cls impl attrs|fields]|] eqn:Hl.
  - exists (VRef (length (h0 ++ ext))), [TensorObj XLAShardedTensor_cls impl ∅].
    split; [by rewrite <- app_assoc|]. split; [done|].
    exists (length (h0 ++ ext)). split; [done|]. split.
    + apply lookup_ge_None_2. rewrite length_app. lia.
    + rewrite app_assoc. by apply list_lookup_middle.
  - exists (VRef l), []. split; [|done]. by rewrite <- Hsame.
  - exists (VRef l), []. split; [|done]. by rewrite <- Hsame.
Qed.

Lemma traverse_extends {A B} h0 (f : A -> M B) (Q : list obj -> A -> B -> Prop) :
  (forall a a' x y, Q a x y -> a `prefix_of` a' -> Q a' x y) ->
  forall l,
    Forall (fun x => forall ext s, heap s = h0 ++ ext ->
              exists y ext',
                f x s = (Ok y, set_heap (h0 ++ ext ++ ext') s) /\
                Q (h0 ++ ext ++ ext') x y) l ->
    forall ext s, heap s = h0 ++ ext ->
      exists ys ext',
        traverse f l s = (Ok ys, set_heap (h0 ++ ext ++ ext') s) /\
        Forall2 (Q (h0 ++ ext ++ ext')) l ys.
Proof.
  intros Hmono l Hall. induction Hall as [|x xs Hx _ IH]; intros ext s Hs.
  - exists [], []. split; [|constructor].
    cbn. rewrite app_nil_r, <- Hs. by rewrite set_heap_id.
  - destruct (Hx ext s Hs) as (y & e1 & Hy & HQ).
    destruct (IH (ext ++ e1) (set_heap (h0 ++ ext ++ e1) s))
      as (ys & e2 & Hys & HQs).
    { cbn. by rewrite app_assoc. }
    exists (y :: ys), (e1 ++ e2). split.
    + cbn [traverse]. rewrite (bind_ok _ _ _ _ _ Hy).
      rewrite (bind_ok _ _ _ _ _ Hys). cbn.
      by rewrite set_heap_set_heap, <- !app_assoc.
    + rewrite <- !app_assoc in HQs. constructor; [|exact HQs].
      eapply Hmono; [exact HQ|].
      exists e2. by rewrite <- !app_assoc.
Qed.

Lemma Forall2_concat_leaves {A B} (R : value -> value -> Prop)
    (f : A -> list value) (g : B -> list value) l k :
  Forall2 (fun x y => Forall2 R (f x) (g y)) l k ->
  Forall2 R (concat (map f l)) (concat (map g k)).
Proof.
  induction 1 as [|x y l k Hxy _ IH]; [constructor|].
  cbn. by apply Forall2_app.
Qed.

Lemma Forall2_map_eq {A B C} (f : A -> C) (g : B -> C) l k :
  Forall2 (fun x y => g y = f x) l k -> map g k = map f l.
Proof. induction 1 as [|x y l k Hxy _ IH]; [done|]. cbn. by rewrite Hxy, IH. Qed.

(** Mapping [wrap] over a result tree: it always returns, the result has
    the shape of the input, only new cells are added to the store, and
    the leaves correspond by [rewrapped]. *)
Lemma tree_map_wrap h0 v :
  closed (length h0) v ->
  forall ext s, heap s = h0 ++ ext ->
    exists v' ext',
      tree_map wrap v s = (Ok v', set_heap (h0 ++ ext ++ ext') s) /\
      tree_shape v' = tree_shape v /\
      Forall2 (rewrapped h0 (h0 ++ ext ++ ext'))
        (tree_leaves v) (tree_leaves v').
Proof.
  set (Q := fun a x y =>
              tree_shape y = tree_shape x /\
              Forall2 (rewrapped h0 a) (tree_leaves x) (tree_leaves y)).
  assert (forall a a' x y, Q a x y -> a `prefix_of` a' -> Q a' x y) as Qmono.
  { intros a a' x y [Hsh Hl] Hpre. split; [exact Hsh|].
    eapply Forall2_impl; [exact Hl|]. intros x0 y0 Hr.
    by eapply rewrapped_mono. }
  induction v as [v Hv|vs IH|vs IH|kvs IH] using value_tree_ind;
    intros Hc ext s Hs.
  - destruct (wrap_leaf h0 v Hc Hv ext s Hs) as (v' & ext' & Hw & Hsh & Hr).
    exists v', ext'. rewrite (tree_map_leaf _ _ Hv). split; [exact Hw|].
    split; [congruence|].
    rewrite (tree_leaves_leaf _ Hv), (tree_leaves_leaf _ Hsh).
    by constructor.
  - apply closed_children in Hc.
    destruct (traverse_extends h0 (tree_map wrap) Q Qmono vs) with (ext := ext) (s := s)
      as (ys & ext' & Ht & HQ); [|exact Hs|].
    { apply Forall_forall. intros x Hin ext0 s0 Hs0.
      rewrite Forall_forall in IH, Hc. by apply IH; [|apply Hc|]. }
    exists (VTuple ys), ext'. cbn [tree_map tree_shape tree_leaves].
    rewrite (bind_ok _ _ _ _ _ Ht). split; [reflexivity|]. split.
    + f_equal. apply (Forall2_map_eq tree_shape tree_shape).
      eapply Forall2_impl; [exact HQ|]. by intros x y [Hsh _].
    + apply Forall2_concat_leaves.
      eapply Forall2_impl; [exact HQ|]. by intros x y [_ Hl].
  - apply closed_children in Hc.
    destruct (traverse_extends h0 (tree_map wrap) Q Qmono vs) with (ext := ext) (s := s)
      as (ys & ext' & Ht & HQ); [|exact Hs|].
    { apply Forall_forall. intros x Hin ext0 s0 Hs0.
      rewrite Forall_forall in IH, Hc. by apply IH; [|apply Hc|]. }
    exists (VList ys), ext'. cbn [tree_map tree_shape tree_leaves].
    rewrite (bind_ok _ _ _ _ _ Ht). split; [reflexivity|]. split.
    + f_equal. apply (Forall2_map_eq tree_shape tree_shape).
      eapply Forall2_impl; [exact HQ|]. by intros x y [Hsh _].
    + apply Forall2_concat_leaves.
      eapply Forall2_impl; [exact HQ|]. by intros x y [_ Hl].
  - unfold closed in Hc. cbn [tree_leaves] in Hc. apply Forall_concat in Hc.
    rewrite List.Forall_map in Hc.
    set (Qd := fun a (kv kv' : string * value) =>
                 kv'.1 = kv.1 /\ Q a kv.2 kv'.2).
    destruct (traverse_extends h0
                (fun kv : string * value =>
                   let '(k, v) := kv in v' <- tree_map wrap v ;; ret (k, v'))
                Qd) with (l := kvs) (ext := ext) (s := s)
      as (ys & ext' & Ht & HQ); [| |exact Hs|].
    { intros a a' x y [Hk HQ] Hpre. split; [exact Hk|]. by eapply Qmono. }
    { apply Forall_forall. intros [k x] Hin ext0 s0 Hs0.
      rewrite Forall_forall in IH, Hc.
      destruct (IH _ Hin (Hc _ Hin) ext0 s0 Hs0) as (x' & e' & Hx & HQx).
      exists (k, x'), e'. split; [by rewrite (bind_ok _ _ _ _ _ Hx)|].
      by split. }
    exists (VDict ys), ext'. cbn [tree_map tree_shape tree_leaves].
    rewrite (bind_ok _ _ _ _ _ Ht). split; [reflexivity|]. split.
    + f_equal.
      apply (Forall2_map_eq
               (fun kv : string * value => let '(k, x) := kv in (k, tree_shape x))
               (fun kv : string * value => let '(k, x) := kv in (k, tree_shape x))).
      eapply Forall2_impl; [exact HQ|].
      intros [k x] [k' x'] [Hk [Hsh _]]. cbn in *. by rewrite Hk, Hsh.
    + apply Forall2_concat_leaves.
      eapply Forall2_impl; [exact HQ|].
      by intros [k x] [k' x'] [_ [_ Hl]].
Qed.

Lemma dispatch_body_ok func args kw ua uk r s s2 :
  unwrapped (heap s) (VTuple args) = Some (VTuple ua) ->
  unwrapped (heap s) (VDict kw) = Some (VDict uk) ->
  func ua uk s = (Ok r, s2) ->
  dispatch_body func args (Some kw) s = tree_map wrap r s2.
Proof.
  intros Ha Hk Hf. unfold dispatch_body.
  unfold bind at 1. rewrite tree_map_unwrap, Ha.
  unfold bind at 1. cbn [from_option]. rewrite tree_map_unwrap, Hk.
  cbn [star_star star]. unfold bind at 1, ret at 1. unfold bind at 1, ret at 1.
  unfold bind. by rewrite Hf.
Qed.

(** ** Further facts about the handler *)

(** With the default [kwargs=None] the handler raises before it calls
    [func]: [None] is a leaf, [unwrap] returns it, and a double-starred
    argument must be a mapping. *)
Lemma dispatch_default_kwargs cls func types args ua s :
  unwrapped (heap s) (VTuple args) = Some (VTuple ua) ->
  __torch__dispatch__ cls func types args None s
    = (Raise (TypeError "argument after ** must be a mapping"),
       del_guard (negb (dispatch_disabled s)) (set_dispatch_disabled true s)).
Proof.
  intros Ha. rewrite dispatch_eq.
  assert (dispatch_body func args None (set_dispatch_disabled true s)
          = (Raise (TypeError "argument after ** must be a mapping"),
             set_dispatch_disabled true s)) as ->; [|done].
  unfold dispatch_body.
  unfold bind at 1. rewrite tree_map_unwrap. cbn [heap set_dispatch_disabled].
  by rewrite Ha.
Qed.

(** When the handler is entered with interception already suspended, the
    guard adds nothing and removes nothing: if [func] leaves the flag as
    it found it, so does the handler. *)
Lemma dispatch_keeps_flag cls func types args kwargs s :
  (forall a k s', dispatch_disabled (func a k s').2 = dispatch_disabled s') ->
  dispatch_disabled (__torch__dispatch__ cls func types args kwargs s).2
    = dispatch_disabled s.
Proof.
  intros Hf. rewrite dispatch_eq. cbn [snd].
  destruct (dispatch_disabled s) eqn:Hs; [|reflexivity]. cbn [negb del_guard].
  assert (holds (fun s' => dispatch_disabled s' = true) any_exn
            (dispatch_body func args kwargs)) as H.
  { assert (forall A (m : M A) E, respects frame E m ->
              holds (fun s' => dispatch_disabled s' = true) any_exn m) as Hfr.
    { intros A m E Hm s' Hs'. destruct (Hm s') as [(Hd & _) _].
      split; [congruence|done]. }
    unfold dispatch_body.
    apply holds_bind; [eapply Hfr, respects_tree_map_unwrap|]. intros a.
    apply holds_bind; [eapply Hfr, respects_tree_map_unwrap|]. intros k.
    apply holds_bind; [by eapply Hfr, (respects_star_star any_exn)|]. intros k'.
    apply holds_bind; [by eapply Hfr, (respects_star any_exn)|]. intros a'.
    apply holds_bind; [|intros r; eapply Hfr, respects_tree_map_wrap].
    intros s' Hs'. split; [by rewrite Hf|done]. }
  by apply H.
Qed.

(** * Further properties of the module *)

(** ** Construction *)

(** X1: the handle that [new] builds from a plain tensor reports the
    strides, the storage offset, the dtype, the layout and the device of
    that tensor, and tracks gradients exactly when the caller asked for
    it. *)
Theorem X1_new_reports_metadata s l impl mesh_shape partition_spec args kwargs b :
  plain_tensor s l impl ->
  dict_get kwargs "requires_grad" (VBool false) = VBool b ->
  exists r s',
    new XLAShardedTensor_cls (VRef l) mesh_shape partition_spec args kwargs s
      = (Ok (VRef r), s') /\
    call_method (VRef r) "stride" s'
      = (Ok (VTuple (VInt <$> t_stride impl)), s') /\
    call_method (VRef r) "storage_offset" s'
      = (Ok (VInt (t_storage_offset impl)), s') /\
    getattr recursion_limit (VRef r) "dtype" s'
      = (Ok (VOpaque (t_dtype impl)), s') /\
    getattr recursion_limit (VRef r) "layout" s'
      = (Ok (VOpaque (t_layout impl)), s') /\
    getattr recursion_limit (VRef r) "device" s'
      = (Ok (VOpaque (t_device impl)), s') /\
    getattr recursion_limit (VRef r) "requires_grad" s' = (Ok (VBool b), s').
Proof.
  intros Hp Hrg. eexists _, _. split; [by apply new_plain_cell|].
  set (g := if b then VRef (S (length (heap s))) else VRef l).
  set (tl := if b then [TensorObj Tensor_cls (detached impl) ∅] else []).
  set (s' := set_heap _ s).
  assert (lookup_obj (length (heap s)) s'
          = Some (TensorObj XLAShardedTensor_cls (wrapper_impl impl b)
                    (handle_attrs g mesh_shape partition_spec))) as Hr
    by apply lookup_obj_middle.
  assert (forall name, name <> "size"%string -> name ∈ tensor_methods ->
            call_method (VRef (length (heap s))) name s'
            = py_call (VMethod (length (heap s)) name) s') as Hcall.
  { intros name Hne Hin. unfold call_method. rewrite recursion_limit_S.
    assert (getattr (S (S 998)) (VRef (length (heap s))) name s'
            = (Ok (VMethod (length (heap s)) name), s')) as Hg.
    { rewrite (getattr_attr _ _ _ _ _ _ name Hr).
      - assert (handle_attrs g mesh_shape partition_spec !! name = None) as ->.
        { unfold handle_attrs, tensor_methods in *.
          repeat (apply elem_of_cons in Hin as [->|Hin]; [done|]).
          by apply elem_of_nil in Hin. }
        cbn [class_attr].
        rewrite bool_decide_eq_false_2.
        + unfold is_method. by rewrite bool_decide_eq_true_2.
        + unfold tensor_methods in Hin.
          repeat (apply elem_of_cons in Hin as [->|Hin]; [done|]).
          by apply elem_of_nil in Hin.
      - unfold tensor_methods in Hin.
        repeat (apply elem_of_cons in Hin as [->|Hin]; [done|]).
        by apply elem_of_nil in Hin.
      - exact Hne. }
    by step Hg. }
  split.
  { rewrite (Hcall "stride") by (done || set_solver).
    by rewrite (py_call_method _ _ _ _ _ "stride" Hr). }
  split.
  { rewrite (Hcall "storage_offset") by (done || set_solver).
    by rewrite (py_call_method _ _ _ _ _ "storage_offset" Hr). }
  rewrite recursion_limit_S.
  split; [by rewrite (getattr_field _ _ _ _ _ _ "dtype" _ Hr eq_refl)|].
  split; [by rewrite (getattr_field _ _ _ _ _ _ "layout" _ Hr eq_refl)|].
  split; [by rewrite (getattr_field _ _ _ _ _ _ "device" _ Hr eq_refl)|].
  by rewrite (getattr_field _ _ _ _ _ _ "requires_grad" _ Hr eq_refl).
Qed.

Lemma X1_new_reports_metadata_witness :
  exists r s',
    new XLAShardedTensor_cls (VRef 0%nat) example_mesh example_spec []
      [("requires_grad"%string, VBool true)] example_state
      = (Ok (VRef r), s') /\
    call_method (VRef r) "stride" s' = (Ok (VTuple [VInt 10; VInt 1]), s') /\
    call_method (VRef r) "storage_offset" s' = (Ok (VInt 0), s') /\
    getattr recursion_limit (VRef r) "dtype" s' = (Ok (VOpaque "float32"), s') /\
    getattr recursion_limit (VRef r) "layout" s' = (Ok (VOpaque "strided"), s') /\
    getattr recursion_limit (VRef r) "device" s' = (Ok (VOpaque "xla:0"), s') /\
    getattr recursion_limit (VRef r) "requires_grad" s' = (Ok (VBool true), s').
Proof.
  apply (X1_new_reports_metadata example_state 0%nat example_impl example_mesh
           example_spec [] [("requires_grad"%string, VBool true)] true).
  - exact example_plain.
  - reflexivity.
Defined.

(** X2: a handle cannot be built from a handle.  On a handle [size] is
    the property, so [elem.size()] in the first line of [new] does not
    return a shape.  When the handle's [global_tensor] is a plain tensor,
    as [new] sets it, the call is applied to a shape and [new] raises
    [TypeError]; when the handle has no [global_tensor], as [wrap] makes
    it, the property itself raises and [new] raises [AttributeError].
    Either way nothing is allocated. *)
Theorem X2_new_rejects_handle cls s h himpl attrs mesh_shape partition_spec
    args kwargs :
  lookup_obj h s = Some (TensorObj XLAShardedTensor_cls himpl attrs) ->
  (forall g gimpl,
     attrs !! "global_tensor"%string = Some (VRef g) ->
     plain_tensor s g gimpl ->
     new cls (VRef h) mesh_shape partition_spec args kwargs s
       = (Raise (TypeError "not callable"), s)) /\
  (attrs !! "global_tensor"%string = None ->
   new cls (VRef h) mesh_shape partition_spec args kwargs s
     = (Raise (AttributeError "global_tensor"), s)).
Proof.
  intros Hh. split.
  - intros g gimpl Hg Hp. unfold new, call_method.
    pose proof (size_of_handle _ _ _ _ _ _ Hh Hg Hp) as Hsize.
    unfold size in Hsize.
    unfold bind at 1. unfold bind at 1. by rewrite Hsize.
  - intros Hg. unfold new, call_method.
    pose proof (size_no_global_tensor _ _ _ _ Hh Hg) as Hsize.
    unfold size in Hsize.
    unfold bind at 1. unfold bind at 1. by rewrite Hsize.
Qed.

Lemma X2_new_rejects_handle_witness :
  new XLAShardedTensor_cls (VRef 1%nat) example_mesh example_spec [] []
    example_handle_state
  = (Raise (TypeError "not callable"), example_handle_state) /\
  new XLAShardedTensor_cls (VRef 1%nat) example_mesh example_spec [] []
    example_wrapped_state
  = (Raise (AttributeError "global_tensor"), example_wrapped_state).
Proof.
  split.
  - assert (lookup_obj 1%nat example_handle_state
            = Some (TensorObj XLAShardedTensor_cls
                      (wrapper_impl example_impl false)
                      (handle_attrs (VRef 0%nat) example_mesh example_spec)))
      as Hh.
    { rewrite example_handle_state_eq. reflexivity. }
    apply (proj1 (X2_new_rejects_handle XLAShardedTensor_cls example_handle_state 1%nat _ _
                    example_mesh example_spec [] [] Hh) 0%nat example_impl).
    + reflexivity.
    + exact example_handle_plain.
  - apply (proj2 (X2_new_rejects_handle XLAShardedTensor_cls example_wrapped_state 1%nat
                    example_impl ∅ example_mesh example_spec [] [] eq_refl)).
    reflexivity.
Defined.

Transparent getattr.

Lemma getattr_not_object d v name s :
  (forall l, v <> VRef l) ->
  getattr (S d) v name s = (Raise (AttributeError name), s).
Proof. intros Hv. destruct v; try reflexivity. by destruct (Hv l). Qed.

Opaque getattr.

(** X3: when [elem] is not an object of the store at all ([None], a
    number, a tuple, ...), [new] raises [AttributeError] for [size], the
    first attribute it reads, and the state is unchanged. *)
Theorem X3_new_rejects_non_object cls elem mesh_shape partition_spec args
    kwargs s :
  (forall l, elem <> VRef l) ->
  new cls elem mesh_shape partition_spec args kwargs s
    = (Raise (AttributeError "size"), s).
Proof.
  intros Hv. unfold new, call_method. rewrite recursion_limit_S.
  unfold bind at 1. unfold bind at 1.
  by rewrite (getattr_not_object _ _ _ _ Hv).
Qed.

Lemma X3_new_rejects_non_object_witness :
  new XLAShardedTensor_cls VNone example_mesh example_spec [] [] example_state
  = (Raise (AttributeError "size"), example_state).
Proof.
  apply (X3_new_rejects_non_object XLAShardedTensor_cls VNone example_mesh
           example_spec [] [] example_state).
  intros l. discriminate.
Defined.

(** ** [new] and the objects that exist *)

Lemma extends_refl s : extends s s.
Proof. by repeat split. Qed.

Lemma extends_trans s1 s2 s3 : extends s1 s2 -> extends s2 s3 -> extends s1 s3.
Proof.
  intros (Hd1 & Hi1 & Hp1) (Hd2 & Hi2 & Hp2).
  split; [congruence|]. split; [congruence|]. by etrans.
Qed.

Lemma extends_alloc o s : extends s (set_heap (heap s ++ [o]) s).
Proof. repeat split. by apply prefix_app_r. Qed.

Lemma extends_bind {A B} E (m : M A) (k : A -> M B) :
  respects extends E m -> (forall a, respects extends E (k a)) ->
  respects extends E (bind m k).
Proof. apply respects_bind, extends_trans. Qed.

Lemma extends_py_call f : respects extends any_exn (py_call f).
Proof.
  intros s. split; [|done].
  unfold py_call. destruct f; try apply extends_refl.
  destruct (lookup_obj self s) as [[cls impl attrs|]|]; try apply extends_refl.
  repeat (case_bool_decide; [apply extends_refl|]).
  case_bool_decide; [|apply extends_refl]. apply extends_alloc.
Qed.

Transparent getattr.

Lemma extends_getattr d v name : respects extends any_exn (getattr d v name).
Proof.
  revert v name. induction d as [|d IH]; intros v name.
  - by apply respects_raise; [apply extends_refl|].
  - destruct v; try (by apply respects_raise; [apply extends_refl|]).
    intros s. cbn [getattr].
    destruct (lookup_obj l s) as [[cls impl attrs|fields]|] eqn:Hl.
    + destruct (size_property cls name).
      * apply extends_bind; [apply IH|]. intros g.
        apply extends_bind; [apply IH|]. intros m. apply extends_py_call.
      * split; [|done].
        destruct (tensor_field impl name); [apply extends_refl|].
        destruct (attrs !! name); [apply extends_refl|].
        destruct (class_attr cls name); [apply extends_refl|].
        destruct (is_method name); apply extends_refl.
    + split; [|done]. destruct (fields !! name); apply extends_refl.
    + split; [apply extends_refl|done].
Qed.

Opaque getattr.

Lemma extends_call_method v name : respects extends any_exn (call_method v name).
Proof.
  apply extends_bind; [apply extends_getattr|]. intros m. apply extends_py_call.
Qed.

(** Assigning an attribute of an object allocated after [s0] keeps the
    objects of [s0]. *)
Lemma extends_setattr s0 l name x s :
  extends s0 s -> (length (heap s0) <= l)%nat ->
  extends s0 (setattr (VRef l) name x s).2.
Proof.
  intros (Hd & Hi & [ext Hext]) Hl. unfold setattr, lookup_obj.
  destruct (heap s !! l) as [[cls impl attrs|fields]|];
    cbn [snd]; try by repeat split; try exists ext.
  all: split; [done|]; split; [done|]; cbn [heap set_heap];
    rewrite Hext, insert_app_r_alt by exact Hl; by eexists.
Qed.

(** X4: whatever its arguments, and whether it returns or raises, [new]
    changes no object that exists when it is called: the store is only
    extended, and the suspension flag and the count of interceptions are
    as before. *)
Theorem X4_new_only_allocates cls elem mesh_shape partition_spec args kwargs s :
  extends s (new cls elem mesh_shape partition_spec args kwargs s).2.
Proof.
  enough (holds (extends s) any_exn
            (new cls elem mesh_shape partition_spec args kwargs)) as H
    by (apply H, extends_refl).
  assert (forall A (m : M A), respects extends any_exn m ->
            holds (extends s) any_exn m) as Hfr.
  { intros A m Hm s1 Hs1. destruct (Hm s1) as [Hf _].
    split; [by eapply extends_trans|done]. }
  set (J := fun (r : value) s1 =>
              extends s s1 /\ exists l, r = VRef l /\ (length (heap s) <= l)%nat).
  assert (forall A (m : M A) r, respects extends any_exn m ->
            holds (J r) any_exn m) as HfrJ.
  { intros A m r Hm s1 [Hs1 Hr]. destruct (Hm s1) as [Hf _].
    split; [|done]. split; [by eapply extends_trans|exact Hr]. }
  unfold new.
  do 3 (apply holds_bind; [apply Hfr, extends_call_method|intros ?]).
  do 3 (apply holds_bind; [apply Hfr, extends_getattr|intros ?]).
  apply (holds_bind_val _ _ J).
  - intros s1 Hs1.
    destruct (make_wrapper_subclass_cases cls a a0 a1 a2 a3 a4
                (dict_get kwargs "requires_grad" (VBool false)) s1)
      as [[e ->]|[impl ->]].
    + by split.
    + split; [eapply extends_trans; [exact Hs1|apply extends_alloc]|].
      eexists. split; [reflexivity|].
      destruct Hs1 as (_ & _ & Hpre). by apply prefix_length.
  - intros r s1 Hs1.
    assert (holds (J r) any_exn
              (rg <- getattr recursion_limit r "requires_grad" ;;
               g <- (if truthy rg then call_method elem "detach" else ret elem) ;;
               setattr r "global_tensor" g ;;;
               setattr r "mesh_shape" mesh_shape ;;;
               setattr r "partition_spec" partition_spec ;;; ret r)) as Ht.
    { assert (forall name x, holds (J r) any_exn (setattr r name x)) as Hset.
      { intros name x s2 [Hs2 (l & -> & Hl)]. split; [|done].
        split; [by apply extends_setattr|by exists l]. }
      apply holds_bind; [apply HfrJ, extends_getattr|]. intros rg.
      apply holds_bind.
      { destruct (truthy rg); [apply HfrJ, extends_call_method|].
        apply HfrJ, respects_ret, extends_refl. }
      intros g. do 3 (apply holds_bind; [apply Hset|intros ?]).
      apply holds_ret. }
    destruct (Ht s1 Hs1) as [[Hf _] He]. by split.
Qed.

(** ** Operands of the handler *)

Lemma guard_round_trip s :
  del_guard (negb (dispatch_disabled s)) (set_dispatch_disabled true s) = s.
Proof. by destruct s as [h [] n]. Qed.

Lemma mapM_id {A} (f : A -> option A) (l : list A) :
  Forall (fun x => f x = Some x) l -> mapM f l = Some l.
Proof.
  induction 1 as [|x xs Hx _ IH]; [done|]. cbn. rewrite Hx. cbn.
  by rewrite IH.
Qed.

Lemma mapM_none {A B} (f : A -> option B) (l : list A) x :
  x ∈ l -> f x = None -> mapM f l = None.
Proof.
  intros Hin Hx. induction l as [|y ys IH]; [by apply elem_of_nil in Hin|].
  apply elem_of_cons in Hin as [<-|Hin].
  - cbn. by rewrite Hx.
  - cbn. destruct (f y); [|done]. cbn. by rewrite (IH Hin).
Qed.

(** A tree without a sharded handle is its own unwrapping. *)
Lemma unwrapped_plain h v :
  Forall (fun x => unwrapped_leaf h x = Some x) (tree_leaves v) ->
  unwrapped h v = Some v.
Proof.
  induction v as [v Hv|vs IH|vs IH|kvs IH] using value_tree_ind; intros Hl.
  - rewrite (tree_leaves_leaf _ Hv), Forall_singleton in Hl.
    by destruct v; try discriminate Hv.
  - cbn [unwrapped tree_leaves] in *. apply Forall_concat in Hl.
    rewrite List.Forall_map in Hl. rewrite mapM_id; [done|].
    rewrite Forall_forall in IH, Hl. apply Forall_forall. intros x Hin.
    by apply IH, Hl.
  - cbn [unwrapped tree_leaves] in *. apply Forall_concat in Hl.
    rewrite List.Forall_map in Hl. rewrite mapM_id; [done|].
    rewrite Forall_forall in IH, Hl. apply Forall_forall. intros x Hin.
    by apply IH, Hl.
  - cbn [unwrapped tree_leaves] in *. apply Forall_concat in Hl.
    rewrite List.Forall_map in Hl. rewrite mapM_id; [done|].
    rewrite Forall_forall in IH, Hl. apply Forall_forall. intros [k x] Hin.
    pose proof (IH _ Hin (Hl _ Hin)) as Hx. cbn [snd] in Hx. by rewrite Hx.
Qed.

(** A tree with a handle that has no [global_tensor] has no unwrapping. *)
Lemma unwrapped_none h v x :
  x ∈ tree_leaves v -> unwrapped_leaf h x = None -> unwrapped h v = None.
Proof.
  intros Hin Hx. revert Hin.
  induction v as [v Hv|vs IH|vs IH|kvs IH] using value_tree_ind; intros Hin.
  - rewrite (tree_leaves_leaf _ Hv) in Hin. apply list_elem_of_singleton in Hin.
    subst. by destruct v; try discriminate Hv.
  - cbn [unwrapped tree_leaves] in *.
    apply list_elem_of_In, in_concat in Hin as (ls & Hls & Hxl).
    apply in_map_iff in Hls as (y & <- & Hy).
    apply list_elem_of_In in Hy, Hxl. rewrite Forall_forall in IH.
    by rewrite (mapM_none _ _ y Hy (IH y Hy Hxl)).
  - cbn [unwrapped tree_leaves] in *.
    apply list_elem_of_In, in_concat in Hin as (ls & Hls & Hxl).
    apply in_map_iff in Hls as (y & <- & Hy).
    apply list_elem_of_In in Hy, Hxl. rewrite Forall_forall in IH.
    by rewrite (mapM_none _ _ y Hy (IH y Hy Hxl)).
  - cbn [unwrapped tree_leaves] in *.
    apply list_elem_of_In, in_concat in Hin as (ls & Hls & Hxl).
    apply in_map_iff in Hls as ([k y] & <- & Hy).
    apply list_elem_of_In in Hy, Hxl. rewrite Forall_forall in IH.
    rewrite (mapM_none _ _ (k, y) Hy); [done|].
    pose proof (IH _ Hy Hxl) as Hy'. cbn [snd] in Hy'. by rewrite Hy'.
Qed.

Lemma not_sharded_unwrapped_leaf s x :
  is_sharded s x = false -> unwrapped_leaf (heap s) x = Some x.
Proof.
  unfold is_sharded, unwrapped_leaf, lookup_obj. destruct x; try done.
  by destruct (heap s !! l) as [[[] impl attrs|]|].
Qed.

(** X5: when no operand is a sharded handle, the handler passes the
    operands to [func] exactly as it received them, nested containers
    included, and wraps what [func] returns. *)
Theorem X5_plain_operands_pass_through cls func types args kw s :
  has_sharded s args kw = false ->
  __torch__dispatch__ cls func types args (Some kw) s
  = (((r <- func args kw ;; tree_map wrap r) (set_dispatch_disabled true s)).1,
     del_guard (negb (dispatch_disabled s))
       ((r <- func args kw ;; tree_map wrap r) (set_dispatch_disabled true s)).2).
Proof.
  intros Hno. unfold has_sharded in Hno.
  assert (Forall (fun x => unwrapped_leaf (heap s) x = Some x)
            (tree_leaves (VTuple args) ++ tree_leaves (VDict kw))) as Hall.
  { apply Forall_forall. intros x Hin. apply not_sharded_unwrapped_leaf.
    destruct (is_sharded s x) eqn:Hx; [|done].
    assert (existsb (is_sharded s)
              (tree_leaves (VTuple args) ++ tree_leaves (VDict kw)) = true) as H.
    { apply existsb_exists. exists x. split; [by apply list_elem_of_In|done]. }
    congruence. }
  apply Forall_app in Hall as [Ha Hk].
  rewrite dispatch_eq. unfold dispatch_body.
  assert (forall s1, heap s1 = heap s ->
            (a <- tree_map unwrap (VTuple args) ;;
             k <- tree_map unwrap (from_option VDict VNone (Some kw)) ;;
             k' <- star_star k ;; a' <- star a ;;
             r <- func a' k' ;; tree_map wrap r) s1
            = (r <- func args kw ;; tree_map wrap r) s1) as ->; [|done|done].
  intros s1 Hs1. unfold bind at 1. rewrite tree_map_unwrap, Hs1.
  rewrite (unwrapped_plain _ _ Ha).
  unfold bind at 1. cbn [from_option]. rewrite tree_map_unwrap, Hs1.
  by rewrite (unwrapped_plain _ _ Hk).
Qed.

Lemma X5_plain_operands_pass_through_witness :
  __torch__dispatch__ XLAShardedTensor_cls echo_op []
    [VRef 0%nat; VList [VInt 2]] (Some [("x"%string, VRef 0%nat)]) example_state
  = (((r <- echo_op [VRef 0%nat; VList [VInt 2]] [("x"%string, VRef 0%nat)] ;;
       tree_map wrap r) (set_dispatch_disabled true example_state)).1,
     del_guard (negb (dispatch_disabled example_state))
       ((r <- echo_op [VRef 0%nat; VList [VInt 2]] [("x"%string, VRef 0%nat)] ;;
         tree_map wrap r) (set_dispatch_disabled true example_state)).2).
Proof.
  apply (X5_plain_operands_pass_through XLAShardedTensor_cls echo_op []
           [VRef 0%nat; VList [VInt 2]] [("x"%string, VRef 0%nat)] example_state).
  reflexivity.
Defined.

(** X6: when an operand, positional or keyword, at any depth, is a
    sharded handle without a [global_tensor], as every handle that [wrap]
    makes is, the handler raises [AttributeError], does not call [func],
    and leaves the state exactly as it was.  So the result of one
    dispatched operation cannot be the operand of the next. *)
Theorem X6_operand_without_global_tensor cls func types args kw s l impl attrs :
  VRef l ∈ tree_leaves (VTuple args) ++ tree_leaves (VDict kw) ->
  lookup_obj l s = Some (TensorObj XLAShardedTensor_cls impl attrs) ->
  attrs !! "global_tensor"%string = None ->
  __torch__dispatch__ cls func types args (Some kw) s
    = (Raise (AttributeError "global_tensor"), s).
Proof.
  intros Hin Hl Hno.
  assert (unwrapped_leaf (heap s) (VRef l) = None) as Hleaf.
  { unfold unwrapped_leaf. unfold lookup_obj in Hl. by rewrite Hl. }
  rewrite dispatch_eq.
  assert (dispatch_body func args (Some kw) (set_dispatch_disabled true s)
          = (Raise (AttributeError "global_tensor"),
             set_dispatch_disabled true s)) as ->.
  { unfold dispatch_body. unfold bind at 1. rewrite tree_map_unwrap.
    cbn [heap set_dispatch_disabled].
    apply elem_of_app in Hin as [Hin|Hin].
    - by rewrite (unwrapped_none _ _ _ Hin Hleaf).
    - destruct (unwrapped (heap s) (VTuple args)); [|done].
      unfold bind at 1. rewrite tree_map_unwrap.
      cbn [heap set_dispatch_disabled from_option].
      by rewrite (unwrapped_none _ _ _ Hin Hleaf). }
  cbn [fst snd]. by rewrite guard_round_trip.
Qed.

Lemma X6_operand_without_global_tensor_witness :
  __torch__dispatch__ XLAShardedTensor_cls echo_op []
    [VRef 0%nat; VList [VRef 1%nat]] (Some []) example_wrapped_state
  = (Raise (AttributeError "global_tensor"), example_wrapped_state).
Proof.
  apply (X6_operand_without_global_tensor XLAShardedTensor_cls echo_op []
           [VRef 0%nat; VList [VRef 1%nat]] [] example_wrapped_state 1%nat
           example_impl ∅).
  - vm_compute. set_solver.
  - reflexivity.
  - reflexivity.
Defined.

(** X7: called with the default [kwargs=None], the handler never
    returns: [None] is a leaf of the tree utility, [unwrap] returns it,
    and the double-starred argument is then not a mapping.  It raises
    [TypeError] (or [AttributeError] when unwrapping the positional
    operands has already failed), does not call [func], and leaves the
    state exactly as it was. *)
Theorem X7_default_kwargs_raise cls func types args s :
  exists e,
    __torch__dispatch__ cls func types args None s = (Raise e, s) /\
    (e = TypeError "argument after ** must be a mapping" \/
     e = AttributeError "global_tensor").
Proof.
  destruct (unwrapped (heap s) (VTuple args)) as [a|] eqn:Ha.
  - exists (TypeError "argument after ** must be a mapping").
    split; [|by left]. rewrite dispatch_eq.
    assert (dispatch_body func args None (set_dispatch_disabled true s)
            = (Raise (TypeError "argument after ** must be a mapping"),
               set_dispatch_disabled true s)) as ->.
    { unfold dispatch_body. unfold bind at 1. rewrite tree_map_unwrap.
      cbn [heap set_dispatch_disabled]. by rewrite Ha. }
    cbn [fst snd]. by rewrite guard_round_trip.
  - exists (AttributeError "global_tensor").
    split; [|by right]. rewrite dispatch_eq.
    assert (dispatch_body func args None (set_dispatch_disabled true s)
            = (Raise (AttributeError "global_tensor"),
               set_dispatch_disabled true s)) as ->.
    { unfold dispatch_body. unfold bind at 1. rewrite tree_map_unwrap.
      cbn [heap set_dispatch_disabled]. by rewrite Ha. }
    cbn [fst snd]. by rewrite guard_round_trip.
Qed.

(** ** One handle per tensor leaf *)











(** ** Handles made by the handler *)

(** X9: the handle that [wrap] makes for a tensor is a new object of
    class [XLAShardedTensor] that carries no sharding annotation: it has
    no [global_tensor], no [mesh_shape] and no [partition_spec] (reading
    any of them raises [AttributeError]), its [local_shards] is the class
    default [None], and its [size] property raises because it reads
    [global_tensor]. *)
Theorem X9_wrapped_handle_has_no_annotation s l cls impl attrs :
  lookup_obj l s = Some (TensorObj cls impl attrs) ->
  exists r s',
    wrap (VRef l) s = (Ok (VRef r), s') /\
    lookup_obj r s = None /\
    is_sharded s' (VRef r) = true /\
    getattr recursion_limit (VRef r) "global_tensor" s'
      = (Raise (AttributeError "global_tensor"), s') /\
    getattr recursion_limit (VRef r) "mesh_shape" s'
      = (Raise (AttributeError "mesh_shape"), s') /\
    getattr recursion_limit (VRef r) "partition_spec" s'
      = (Raise (AttributeError "partition_spec"), s') /\
    getattr recursion_limit (VRef r) "local_shards" s' = (Ok VNone, s') /\
    size (VRef r) s' = (Raise (AttributeError "global_tensor"), s').
Proof.
  intros Hl. rewrite wrap_eq, Hl. eexists _, _. split; [reflexivity|].
  set (s' := set_heap _ s).
  assert (lookup_obj (length (heap s)) s'
          = Some (TensorObj XLAShardedTensor_cls impl ∅)) as Hr.
  { unfold s'. change (heap s ++ [?o]) with (heap s ++ o :: []).
    apply lookup_obj_middle. }
  split; [apply lookup_ge_None_2; lia|].
  split; [unfold is_sharded; by rewrite Hr|].
  assert (forall d, getattr (S d) (VRef (length (heap s))) "global_tensor" s'
                    = (Raise (AttributeError "global_tensor"), s')) as Hgt.
  { intros d. by rewrite (getattr_attr _ _ _ _ _ _ "global_tensor" Hr). }
  unfold size. rewrite recursion_limit_S.
  split; [apply Hgt|].
  split; [by rewrite (getattr_attr _ _ _ _ _ _ "mesh_shape" Hr)|].
  split; [by rewrite (getattr_attr _ _ _ _ _ _ "partition_spec" Hr)|].
  split; [by rewrite (getattr_attr _ _ _ _ _ _ "local_shards" Hr)|].
  rewrite (getattr_tensor _ _ _ _ _ _ "size" Hr).
  change (size_property XLAShardedTensor_cls "size") with true. cbv iota.
  unfold bind at 1. by rewrite Hgt.
Qed.

Lemma X9_wrapped_handle_has_no_annotation_witness :
  exists r s',
    wrap (VRef 0%nat) example_state = (Ok (VRef r), s') /\
    lookup_obj r example_state = None /\
    is_sharded s' (VRef r) = true /\
    getattr recursion_limit (VRef r) "global_tensor" s'
      = (Raise (AttributeError "global_tensor"), s') /\
    getattr recursion_limit (VRef r) "mesh_shape" s'
      = (Raise (AttributeError "mesh_shape"), s') /\
    getattr recursion_limit (VRef r) "partition_spec" s'
      = (Raise (AttributeError "partition_spec"), s') /\
    getattr recursion_limit (VRef r) "local_shards" s' = (Ok VNone, s') /\
    size (VRef r) s' = (Raise (AttributeError "global_tensor"), s').
Proof.
  apply (X9_wrapped_handle_has_no_annotation example_state 0%nat Tensor_cls
           example_impl ∅).
  reflexivity.
Defined.

(** ** The context manager *)

(** X10: [no_dispatch] can be nested.  An inner [with no_dispatch():]
    inside an outer one changes nothing: on exit of the inner block
    interception is still suspended, and the whole behaves as a single
    block.  And a block entered with the flag in some state leaves it in
    that state, if the body itself does. *)
Theorem X10_no_dispatch_nests {A} (body : M A) s :
  (forall s', dispatch_disabled (body s').2 = dispatch_disabled s') ->
  no_dispatch (no_dispatch body) s = no_dispatch body s /\
  dispatch_disabled (no_dispatch body s).2 = dispatch_disabled s.
Proof.
  intros Hb. unfold no_dispatch, _DisableTorchDispatch.
  change (set_dispatch_disabled true (set_dispatch_disabled true s))
    with (set_dispatch_disabled true s).
  cbn [dispatch_disabled set_dispatch_disabled negb del_guard].
  pose proof (Hb (set_dispatch_disabled true s)) as Hflag.
  destruct (body (set_dispatch_disabled true s)) as [r s2]. cbn [snd] in *.
  split; [reflexivity|].
  destruct (dispatch_disabled s); [exact Hflag|reflexivity].
Qed.

Lemma X10_no_dispatch_nests_witness :
  no_dispatch (no_dispatch (ret VNone)) example_state
    = no_dispatch (ret VNone) example_state /\
  dispatch_disabled (no_dispatch (ret VNone) example_state).2
    = dispatch_disabled example_state.
Proof.
  apply (X10_no_dispatch_nests (ret VNone) example_state).
  intros s'. reflexivity.
Defined.

(** ** Printing, shard records and the size of a handle *)

(** X11: the printed form of a handle names the tensor it stands for.
    For a handle built by [new] without gradient tracking this is the
    tensor it was built from: [repr] is ["XLAShardedTensor("], the text
    that the engine's printer gives for [elem], and [")"]; the mesh shape
    and the partition spec are not shown. *)
Theorem X11_repr_of_new format s l impl mesh_shape partition_spec args kwargs
    t s'' :
  plain_tensor s l impl ->
  dict_get kwargs "requires_grad" (VBool false) = VBool false ->
  format (VRef l)
    (new XLAShardedTensor_cls (VRef l) mesh_shape partition_spec args kwargs s).2
    = (Ok t, s'') ->
  (r <- new XLAShardedTensor_cls (VRef l) mesh_shape partition_spec args kwargs ;;
   __repr__ format r) s
  = (Ok (VStr ("XLAShardedTensor(" ++ t ++ ")")), s'').
Proof.
  intros Hp Hrg Hfmt.
  rewrite (new_plain_cell _ _ _ _ _ _ _ _ false Hp Hrg) in Hfmt. cbn [snd] in Hfmt.
  rewrite (bind_ok _ _ _ _ _ (new_plain_cell _ _ _ _ _ _ _ _ false Hp Hrg)).
  unfold __repr__. rewrite recursion_limit_S.
  assert (getattr (S (S 998)) (VRef (length (heap s))) "global_tensor"
            (set_heap
               (heap s ++
                TensorObj XLAShardedTensor_cls (wrapper_impl impl false)
                  (handle_attrs (VRef l) mesh_shape partition_spec) :: []) s)
          = (Ok (VRef l),
             set_heap
               (heap s ++
                TensorObj XLAShardedTensor_cls (wrapper_impl impl false)
                  (handle_attrs (VRef l) mesh_shape partition_spec) :: []) s))
    as Hg.
  { erewrite getattr_attr; [|apply lookup_obj_middle|done|done].
    unfold handle_attrs. rewrite !lookup_insert_ne by done.
    by rewrite lookup_insert_eq. }
  step Hg. by step Hfmt.
Qed.

Lemma X11_repr_of_new_witness :
  (r <- new XLAShardedTensor_cls (VRef 0%nat) example_mesh example_spec [] [] ;;
   __repr__ (fun _ => ret "tensor(...)"%string) r) example_state
  = (Ok (VStr ("XLAShardedTensor(" ++ "tensor(...)" ++ ")")),
     example_handle_state).
Proof.
  apply (X11_repr_of_new (fun _ => ret "tensor(...)"%string) example_state 0%nat
           example_impl example_mesh example_spec [] []).
  - exact example_plain.
  - reflexivity.
  - reflexivity.
Defined.

Transparent getattr.

Lemma getattr_shard d s l fields name :
  lookup_obj l s = Some (XLAShard fields) ->
  getattr (S d) (VRef l) name s =
    match fields !! name with
    | Some x => (Ok x, s)
    | None => (Raise (AttributeError name), s)
    end.
Proof. intros Hl. cbn [getattr]. rewrite Hl. by destruct (fields !! name). Qed.

Opaque getattr.

(** X12: [XLAShard(data, rank)] makes a new record whose [data] and
    [rank] read back as the values given, whatever these are (the
    annotations are not checked: the rank need not be an integer, nor the
    data a tensor), and changes nothing else. *)
Theorem X12_shard_fields_read_back data rank s :
  exists l s',
    XLAShard_new data rank s = (Ok (VRef l), s') /\
    lookup_obj l s = None /\
    getattr recursion_limit (VRef l) "data" s' = (Ok data, s') /\
    getattr recursion_limit (VRef l) "rank" s' = (Ok rank, s') /\
    extends s s'.
Proof.
  eexists _, _. split; [reflexivity|].
  split; [apply lookup_ge_None_2; lia|].
  rewrite recursion_limit_S.
  assert (lookup_obj (length (heap s))
            (set_heap (heap s ++ [XLAShard (<["rank"%string := rank]>
                                             (<["data"%string := data]> ∅))]) s)
          = Some (XLAShard (<["rank"%string := rank]>
                              (<["data"%string := data]> ∅)))) as Hl.
  { change (heap s ++ [?o]) with (heap s ++ o :: []). apply lookup_obj_middle. }
  split.
  { rewrite (getattr_shard _ _ _ _ "data" Hl).
    rewrite lookup_insert_ne by done. by rewrite lookup_insert_eq. }
  split.
  { rewrite (getattr_shard _ _ _ _ "rank" Hl). by rewrite lookup_insert_eq. }
  apply extends_alloc.
Qed.

Lemma plain_tensor_setattr s h cls himpl attrs name x g gimpl :
  lookup_obj h s = Some (TensorObj cls himpl attrs) ->
  h <> g ->
  plain_tensor s g gimpl ->
  plain_tensor
    (set_heap (<[h := TensorObj cls himpl (<[name := x]> attrs)]> (heap s)) s)
    g gimpl.
Proof.
  intros Hh Hne (gattrs & Hg & Hno). exists gattrs. split; [|exact Hno].
  unfold lookup_obj in *. cbn [heap set_heap].
  by rewrite list_lookup_insert_ne.
Qed.

(** X13: the size of a handle is read through [global_tensor] on every
    access; it is not the shape fixed at construction.  After another
    plain tensor is assigned to [global_tensor] (as the backend does when
    it materialises a result), [size] is the shape of that tensor, while
    the [size] method of the tensor type, applied to the handle, still
    returns the shape the wrapper was made with. *)
Theorem X13_size_follows_global_tensor s h himpl attrs g gimpl :
  lookup_obj h s = Some (TensorObj XLAShardedTensor_cls himpl attrs) ->
  plain_tensor s g gimpl ->
  (setattr (VRef h) "global_tensor" (VRef g) ;;; size (VRef h)) s
    = (Ok (VSize (t_size gimpl)),
       (setattr (VRef h) "global_tensor" (VRef g) s).2) /\
  (setattr (VRef h) "global_tensor" (VRef g) ;;;
   py_call (VMethod h "size")) s
    = (Ok (VSize (t_size himpl)),
       (setattr (VRef h) "global_tensor" (VRef g) s).2).
Proof.
  intros Hh Hp.
  assert (h <> g) as Hne.
  { intros ->. destruct Hp as (gattrs & Hg & _). congruence. }
  assert (setattr (VRef h) "global_tensor" (VRef g) s
          = (Ok tt,
             set_heap (<[h := TensorObj XLAShardedTensor_cls himpl
                               (<["global_tensor"%string := VRef g]> attrs)]>
                         (heap s)) s)) as Hset.
  { unfold setattr. by rewrite Hh. }
  rewrite Hset. cbn [snd].
  set (s' := set_heap _ s).
  assert (lookup_obj h s'
          = Some (TensorObj XLAShardedTensor_cls himpl
                    (<["global_tensor"%string := VRef g]> attrs))) as Hh'.
  { unfold s', lookup_obj in *. cbn [heap set_heap].
    apply list_lookup_insert_eq. by apply lookup_lt_Some in Hh. }
  split.
  - step Hset. fold s'.
    apply (size_of_handle s' h himpl _ g gimpl Hh');
      [by rewrite lookup_insert_eq|].
    by apply (plain_tensor_setattr _ _ _ _ _ _ _ _ _ Hh Hne Hp).
  - step Hset. fold s'. by rewrite (py_call_method _ _ _ _ _ "size" Hh').
Qed.

Lemma X13_size_follows_global_tensor_witness :
  (setattr (VRef 1%nat) "global_tensor" (VRef 0%nat) ;;; size (VRef 1%nat))
    example_wrapped_state
    = (Ok (VSize [8; 10]),
       (setattr (VRef 1%nat) "global_tensor" (VRef 0%nat)
          example_wrapped_state).2) /\
  (setattr (VRef 1%nat) "global_tensor" (VRef 0%nat) ;;;
   py_call (VMethod 1%nat "size")) example_wrapped_state
    = (Ok (VSize [8; 10]),
       (setattr (VRef 1%nat) "global_tensor" (VRef 0%nat)
          example_wrapped_state).2).
Proof.
  apply (X13_size_follows_global_tensor example_wrapped_state 1%nat
           example_impl ∅ 0%nat example_impl).
  - reflexivity.
  - exists ∅. split; [reflexivity|]. intros name _. apply lookup_empty.
Defined.

(** ** The handler and the objects that exist *)

Lemma extends_wrap elem : respects extends any_exn (wrap elem).
Proof.
  intros s. split; [|done]. rewrite wrap_eq. destruct elem; try apply extends_refl.
  destruct (lookup_obj l s) as [[cls impl attrs|]|]; try apply extends_refl.
  apply extends_alloc.
Qed.

Lemma extends_tree_map_unwrap v : respects extends any_exn (tree_map unwrap v).
Proof. intros s. rewrite tree_map_unwrap. split; [apply extends_refl|done]. Qed.

(** X14: the handler itself changes no object.  If [func] only adds
    objects to the store, then so does a dispatched call, on every path,
    returning or raising: every object that exists before the call is
    unchanged after it, and the suspension flag and the count of
    interceptions are as before. *)
Theorem X14_dispatch_only_allocates cls func types args kwargs s :
  (forall a k, respects extends any_exn (func a k)) ->
  extends s (__torch__dispatch__ cls func types args kwargs s).2.
Proof.
  intros Hf. rewrite dispatch_eq. cbn [snd].
  assert (respects extends any_exn (dispatch_body func args kwargs)) as Hb.
  { unfold dispatch_body.
    apply extends_bind; [apply extends_tree_map_unwrap|]. intros a.
    apply extends_bind; [apply extends_tree_map_unwrap|]. intros k.
    apply extends_bind.
    { destruct k; try (by apply respects_raise; [apply extends_refl|]).
      apply respects_ret, extends_refl. }
    intros k'. apply extends_bind.
    { destruct a; try (by apply respects_raise; [apply extends_refl|]);
        apply respects_ret, extends_refl. }
    intros a'. apply extends_bind; [apply Hf|]. intros r.
    apply respects_tree_map; [apply extends_refl|apply extends_trans|].
    apply extends_wrap. }
  destruct (Hb (set_dispatch_disabled true s)) as [(Hd & Hi & Hp) _].
  cbn [dispatch_disabled interceptions heap set_dispatch_disabled] in *.
  destruct (dispatch_disabled s) eqn:Hs; cbn [negb del_guard].
  - split; [congruence|]. by split.
  - split; [by rewrite Hs|]. by split.
Qed.

Lemma X14_dispatch_only_allocates_witness :
  extends example_handle_state
    (__torch__dispatch__ XLAShardedTensor_cls echo_op [] [VRef 1%nat]
       (Some []) example_handle_state).2.
Proof.
  apply (X14_dispatch_only_allocates XLAShardedTensor_cls echo_op []
           [VRef 1%nat] (Some []) example_handle_state).
  intros a k. apply respects_ret, extends_refl.
Defined.

(** X15: [local_shards] is not shared between handles.  The class
    default is [None]; assigning shards to one handle sets an attribute
    of that handle only, and another handle still reads [None]. *)
Theorem X15_local_shards_not_shared s h1 impl1 attrs1 h2 impl2 attrs2 shards :
  lookup_obj h1 s = Some (TensorObj XLAShardedTensor_cls impl1 attrs1) ->
  lookup_obj h2 s = Some (TensorObj XLAShardedTensor_cls impl2 attrs2) ->
  h1 <> h2 ->
  attrs2 !! "local_shards"%string = None ->
  (setattr (VRef h1) "local_shards" shards ;;;
   x <- getattr recursion_limit (VRef h1) "local_shards" ;;
   y <- getattr recursion_limit (VRef h2) "local_shards" ;;
   ret (x, y)) s
  = (Ok (shards, VNone), (setattr (VRef h1) "local_shards" shards s).2).
Proof.
  intros H1 H2 Hne Hno.
  assert (setattr (VRef h1) "local_shards" shards s
          = (Ok tt,
             set_heap (<[h1 := TensorObj XLAShardedTensor_cls impl1
                                (<["local_shards"%string := shards]> attrs1)]>
                         (heap s)) s)) as Hset.
  { unfold setattr. by rewrite H1. }
  rewrite Hset. cbn [snd]. step Hset.
  set (s' := set_heap _ s).
  assert (lookup_obj h1 s'
          = Some (TensorObj XLAShardedTensor_cls impl1
                    (<["local_shards"%string := shards]> attrs1))) as H1'.
  { unfold s', lookup_obj in *. cbn [heap set_heap].
    apply list_lookup_insert_eq. by apply lookup_lt_Some in H1. }
  assert (lookup_obj h2 s' = Some (TensorObj XLAShardedTensor_cls impl2 attrs2))
    as H2'.
  { unfold s', lookup_obj in *. cbn [heap set_heap].
    by rewrite list_lookup_insert_ne. }
  rewrite recursion_limit_S.
  assert (getattr (S (S 998)) (VRef h1) "local_shards" s' = (Ok shards, s')) as G1.
  { rewrite (getattr_attr _ _ _ _ _ _ "local_shards" H1') by done.
    by rewrite lookup_insert_eq. }
  assert (getattr (S (S 998)) (VRef h2) "local_shards" s' = (Ok VNone, s')) as G2.
  { rewrite (getattr_attr _ _ _ _ _ _ "local_shards" H2') by done.
    by rewrite Hno. }
  step G1. by step G2.
Qed.

Lemma X15_local_shards_not_shared_witness :
  (setattr (VRef 1%nat) "local_shards" (VList [VRef 0%nat]) ;;;
   x <- getattr recursion_limit (VRef 1%nat) "local_shards" ;;
   y <- getattr recursion_limit (VRef 2%nat) "local_shards" ;;
   ret (x, y)) example_two_handles_state
  = (Ok (VList [VRef 0%nat], VNone),
     (setattr (VRef 1%nat) "local_shards" (VList [VRef 0%nat])
        example_two_handles_state).2).
Proof.
  apply (X15_local_shards_not_shared example_two_handles_state
           1%nat (wrapper_impl example_impl false)
           (handle_attrs (VRef 0%nat) example_mesh example_spec)
           2%nat (wrapper_impl example_impl false)
           (handle_attrs (VRef 0%nat) example_mesh example_spec)).
  - vm_compute. reflexivity.
  - vm_compute. reflexivity.
  - discriminate.
  - vm_compute. reflexivity.
Defined.

(** * The results of the handler as operands and handles *)

(** An operand that is a handle without [global_tensor] makes the
    handler raise before [func] is called, whatever the keyword
    operands. *)
Lemma dispatch_no_global_tensor cls func types args kwargs s h himpl attrs :
  VRef h ∈ tree_leaves (VTuple args) ->
  lookup_obj h s = Some (TensorObj XLAShardedTensor_cls himpl attrs) ->
  attrs !! "global_tensor"%string = None ->
  __torch__dispatch__ cls func types args kwargs s
    = (Raise (AttributeError "global_tensor"), s).
Proof.
  intros Hin Hh Hg.
  assert (unwrapped_leaf (heap s) (VRef h) = None) as Hleaf.
  { unfold unwrapped_leaf. unfold lookup_obj in Hh. by rewrite Hh. }
  rewrite dispatch_eq.
  assert (dispatch_body func args kwargs (set_dispatch_disabled true s)
          = (Raise (AttributeError "global_tensor"),
             set_dispatch_disabled true s)) as ->.
  { unfold dispatch_body. unfold bind at 1. rewrite tree_map_unwrap.
    cbn [heap set_dispatch_disabled].
    by rewrite (unwrapped_none _ _ _ Hin Hleaf). }
  cbn [fst snd]. by rewrite guard_round_trip.
Qed.

(** C9 fails on the code for the handles that the handler itself makes.
    For every tensor [x], [wrap(x)] is a new object of class
    [XLAShardedTensor] on which [h.size] does not evaluate to a shape but
    raises [AttributeError] for [global_tensor], and [h.size()] raises
    that same [AttributeError], not a [TypeError]: the property body
    reads an attribute that [wrap] never set. *)
Theorem C9_size_raises_on_wrapped_handle s l :
  is_tensor s (VRef l) = true ->
  exists h s',
    wrap (VRef l) s = (Ok (VRef h), s') /\
    lookup_obj h s = None /\
    is_sharded s' (VRef h) = true /\
    getattr recursion_limit (VRef h) "size" s'
      = (Raise (AttributeError "global_tensor"), s') /\
    call_method (VRef h) "size" s'
      = (Raise (AttributeError "global_tensor"), s') /\
    call_method (VRef h) "size" s' <> (Raise (TypeError "not callable"), s').
Proof.
  intros Ht. unfold is_tensor in Ht. rewrite wrap_eq.
  destruct (lookup_obj l s) as [[cls impl attrs|]|] eqn:Hl; try discriminate.
  eexists _, _. split; [reflexivity|].
  set (s' := set_heap _ s).
  assert (lookup_obj (length (heap s)) s'
          = Some (TensorObj XLAShardedTensor_cls impl ∅)) as Hh.
  { unfold s'. change (heap s ++ [?o]) with (heap s ++ o :: []).
    apply lookup_obj_middle. }
  pose proof (size_no_global_tensor s' _ _ _ Hh (lookup_empty _)) as Hsize.
  unfold size in Hsize.
  split; [apply lookup_ge_None_2; lia|].
  split; [unfold is_sharded; by rewrite Hh|].
  split; [exact Hsize|].
  assert (call_method (VRef (length (heap s))) "size" s'
          = (Raise (AttributeError "global_tensor"), s')) as Hcall.
  { unfold call_method, bind. by rewrite Hsize. }
  split; [exact Hcall|]. rewrite Hcall. intros [=].
Qed.

Lemma C9_size_raises_on_wrapped_handle_witness :
  exists h s',
    wrap (VRef 0%nat) example_state = (Ok (VRef h), s') /\
    lookup_obj h example_state = None /\
    is_sharded s' (VRef h) = true /\
    getattr recursion_limit (VRef h) "size" s'
      = (Raise (AttributeError "global_tensor"), s') /\
    call_method (VRef h) "size" s'
      = (Raise (AttributeError "global_tensor"), s') /\
    call_method (VRef h) "size" s' <> (Raise (TypeError "not callable"), s').
Proof.
  apply (C9_size_raises_on_wrapped_handle example_state 0%nat). reflexivity.
Defined.

(** C1 fails on the code.  Its first half holds: when [func] returns the
    tree [r] on the fully unwrapped operands, the handler returns a tree
    of the same nested shape.  But a tensor leaf of [r] is not wrapped
    into a sharded handle: what stands in its place is a new object of
    class [XLAShardedTensor] without [global_tensor], whose size and
    whose repr raise [AttributeError], and which cannot be unwrapped, so
    that dispatching any operation on this result raises before the
    operation is called. *)
Theorem C1_dispatch_result_is_no_handle cls func types args kw s ua uk r s2 l :
  unwrapped (heap s) (VTuple args) = Some (VTuple ua) ->
  unwrapped (heap s) (VDict kw) = Some (VDict uk) ->
  func ua uk (set_dispatch_disabled true s) = (Ok r, s2) ->
  closed (length (heap s2)) r ->
  VRef l ∈ tree_leaves r ->
  is_tensor s2 (VRef l) = true ->
  exists r' s' h,
    __torch__dispatch__ cls func types args (Some kw) s = (Ok r', s') /\
    tree_shape r' = tree_shape r /\
    VRef h ∈ tree_leaves r' /\
    lookup_obj h s2 = None /\
    is_sharded s' (VRef h) = true /\
    getattr recursion_limit (VRef h) "global_tensor" s'
      = (Raise (AttributeError "global_tensor"), s') /\
    size (VRef h) s' = (Raise (AttributeError "global_tensor"), s') /\
    (forall format,
       __repr__ format (VRef h) s'
         = (Raise (AttributeError "global_tensor"), s')) /\
    (forall cls' func' types' kwargs',
       __torch__dispatch__ cls' func' types' [r'] kwargs' s'
         = (Raise (AttributeError "global_tensor"), s')).
Proof.
  intros Ha Hk Hf Hc Hin Ht.
  destruct (tree_map_wrap (heap s2) r Hc [] s2) as (r' & new & Hw & Hsh & Hl).
  { by rewrite app_nil_r. }
  cbn [app] in Hw, Hl.
  apply list_elem_of_lookup in Hin as [i Hi].
  destruct (Forall2_lookup_l _ _ _ _ _ Hl Hi) as (x' & Hi' & Hr).
  unfold rewrapped in Hr. unfold is_tensor, lookup_obj in Ht.
  destruct (heap s2 !! l) as [[c impl attrs|]|] eqn:Hcell; try discriminate.
  destruct Hr as (h & -> & Hnew & Hcellh).
  set (s' := del_guard (negb (dispatch_disabled s))
               (set_heap (heap s2 ++ new) s2)).
  assert (lookup_obj h s' = Some (TensorObj XLAShardedTensor_cls impl ∅)) as Hh.
  { unfold s', lookup_obj. by destruct (negb (dispatch_disabled s)). }
  exists r', s', h.
  split.
  { rewrite dispatch_eq.
    by rewrite (dispatch_body_ok func args kw ua uk r
                  (set_dispatch_disabled true s) s2 Ha Hk Hf), Hw. }
  split; [exact Hsh|].
  assert (VRef h ∈ tree_leaves r') as Hin'.
  { by apply list_elem_of_lookup; exists i. }
  split; [exact Hin'|]. split; [exact Hnew|].
  split; [unfold is_sharded; by rewrite Hh|].
  assert (getattr recursion_limit (VRef h) "global_tensor" s'
          = (Raise (AttributeError "global_tensor"), s')) as Hgt.
  { rewrite recursion_limit_S.
    apply (getattr_no_global_tensor _ _ _ _ _ Hh (lookup_empty _)). }
  split; [exact Hgt|].
  split; [apply (size_no_global_tensor _ _ _ _ Hh (lookup_empty _))|].
  split.
  - intros format. unfold __repr__, bind. by rewrite Hgt.
  - intros cls' func' types' kwargs'.
    apply (dispatch_no_global_tensor _ _ _ _ _ _ h impl ∅); [|exact Hh|done].
    cbn [tree_leaves map concat]. by rewrite app_nil_r.
Qed.

Lemma C1_dispatch_result_is_no_handle_witness :
  exists r' s' h,
    __torch__dispatch__ XLAShardedTensor_cls echo_op []
      [VRef 1%nat; VList [VRef 0%nat]] (Some [("x"%string, VRef 1%nat)])
      example_handle_state = (Ok r', s') /\
    tree_shape r'
      = tree_shape (VTuple [VList [VRef 0%nat; VList [VRef 0%nat]];
                            VDict [("x"%string, VRef 0%nat)]; VInt 3]) /\
    VRef h ∈ tree_leaves r' /\
    lookup_obj h (set_dispatch_disabled true example_handle_state) = None /\
    is_sharded s' (VRef h) = true /\
    getattr recursion_limit (VRef h) "global_tensor" s'
      = (Raise (AttributeError "global_tensor"), s') /\
    size (VRef h) s' = (Raise (AttributeError "global_tensor"), s') /\
    (forall format,
       __repr__ format (VRef h) s'
         = (Raise (AttributeError "global_tensor"), s')) /\
    (forall cls' func' types' kwargs',
       __torch__dispatch__ cls' func' types' [r'] kwargs' s'
         = (Raise (AttributeError "global_tensor"), s')).
Proof.
  apply (C1_dispatch_result_is_no_handle XLAShardedTensor_cls echo_op []
           [VRef 1%nat; VList [VRef 0%nat]] [("x"%string, VRef 1%nat)]
           example_handle_state
           [VRef 0%nat; VList [VRef 0%nat]] [("x"%string, VRef 0%nat)]
           (VTuple [VList [VRef 0%nat; VList [VRef 0%nat]];
                    VDict [("x"%string, VRef 0%nat)]; VInt 3])
           (set_dispatch_disabled true example_handle_state) 0%nat).
  - vm_compute. reflexivity.
  - vm_compute. reflexivity.
  - reflexivity.
  - vm_compute. repeat constructor.
  - vm_compute. set_solver.
  - reflexivity.
Defined.
